(** * homedns request handlers (src/homedns/handlers.py)

    A shallow embedding of the TCP and UDP request handlers: the transport
    framing ([get_data], [send_data]), the access filter
    ([get_denied_types]), the upstream forwarder ([forward_roots]) and the
    dispatcher ([handle]).

    Python effects are modelled by a small writer/exception monad: a
    computation yields the I/O events it performed, in order, and then either
    a value or a raised exception.  The outside world (what the sockets
    answer, what the local lookup returns, the configuration) is a record of
    oracles that the code reads. *)

From Stdlib Require Import List String Ascii ZArith NArith Bool Lia.
From Stdlib Require Import Init.Byte Strings.Byte.
Import ListNotations.

Local Open Scope string_scope.
Local Open Scope list_scope.
Local Open Scope Z_scope.

(** ** Exceptions and results *)

(** The instances of [Exception] the handlers can meet.  [OSError] covers the
    socket errors, [socket.timeout] included; [StructError] is
    [struct.error]; [ValueError] is what tuple unpacking raises;
    [PyException] is a plain [Exception(msg)], as the code raises itself and
    what any other subclass is modelled by. *)
Inductive exn : Type :=
| OSError (msg : string)
| StructError (msg : string)
| ValueError (msg : string)
| PyException (msg : string).

Definition is_OSError (e : exn) : bool :=
  match e with OSError _ => true | _ => false end.

Inductive result (A : Type) : Type :=
| Return (a : A)
| Raise (e : exn).
Arguments Return {A} a.
Arguments Raise {A} e.

Definition bytes := list byte.

Definition len {A} (l : list A) : Z := Z.of_nat (List.length l).

(** ** Byte strings: [strip], [struct.pack], [struct.unpack] *)

(** ASCII whitespace as [bytes.strip()] understands it: space, tab, newline,
    carriage return, vertical tab and form feed. *)
Definition is_space (b : byte) : bool :=
  match b with
  | x09 | x0a | x0b | x0c | x0d | x20 => true
  | _ => false
  end.

Fixpoint lstrip (data : bytes) : bytes :=
  match data with
  | b :: rest => if is_space b then lstrip rest else data
  | [] => []
  end.

Definition rstrip (data : bytes) : bytes := rev (lstrip (rev data)).

(** [data.strip()]: whitespace is removed at both ends. *)
Definition strip (data : bytes) : bytes := rstrip (lstrip data).

Definition byte_to_Z (b : byte) : Z := Z.of_N (Byte.to_N b).

Definition byte_of_Z (z : Z) : byte :=
  match Byte.of_N (Z.to_N z) with
  | Some b => b
  | None => x00
  end.

(** [struct.pack(">H", n)]: two bytes, most significant first; a number
    outside 0..65535 is a [struct.error]. *)
Definition struct_pack_H (n : Z) : result bytes :=
  if (0 <=? n) && (n <=? 65535)
  then Return [byte_of_Z (n / 256); byte_of_Z (n mod 256)]
  else Raise (StructError "'H' format requires 0 <= number <= 65535").

(** [struct.unpack(">H", b)[0]]: the buffer must hold exactly two bytes. *)
Definition struct_unpack_H (b : bytes) : result Z :=
  match b with
  | [hi; lo] => Return (256 * byte_to_Z hi + byte_to_Z lo)
  | _ => Raise (StructError "unpack requires a buffer of 2 bytes")
  end.

(** ** TCP framing, the pure part of [TCPRequestHandler] *)

(** The two size errors of [TCPRequestHandler.get_data].  The declared size
    exceeds what was received (the packet is undersized): *)
Definition too_big_packet : exn := PyException "Too big TCP packet".
(** The declared size is below what was received (the packet is oversized): *)
Definition wrong_size_packet : exn := PyException "Wrong size of TCP packet".

(** [get_data] from the bytes that [self.request.recv(8192)] returned. *)
Definition tcp_decode (received : bytes) : result bytes :=
  let data := strip received in
  match struct_unpack_H (firstn 2 data) with
  | Raise e => Raise e
  | Return sz =>
      if sz <? len data - 2 then Raise wrong_size_packet
      else if sz >? len data - 2 then Raise too_big_packet
      else Return (skipn 2 data)
  end.

(** What [send_data] hands to [sendall]: [struct.pack(">H", len(data)) + data]. *)
Definition tcp_encode (data : bytes) : result bytes :=
  match struct_pack_H (len data) with
  | Raise e => Raise e
  | Return sz => Return (sz ++ data)
  end.

(** [sock.recv(n)] on a stream that holds [stream]: at most [n] bytes. *)
Definition recv_upto (n : Z) (stream : bytes) : bytes :=
  firstn (Z.to_nat n) stream.

(** ** Events, the world and the effect monad *)

Inductive level : Type := DEBUG | INFO | ERROR.

(** What a logging call is given (the time stamp of the request line is left
    out: nothing depends on it). *)
Inductive logged : Type :=
| Text (s : string)
| RequestLine (cls ip : string) (port : Z)
| Denied (denylist : list string)
| Code (retcode : Z)
| Compare (ip search_ip : string)
| ForwardTo (ip : string) (port : Z)
| Err (e : exn)
| Data (b : bytes).

Inductive sock_kind : Type := SOCK_STREAM | SOCK_DGRAM.

(** The I/O a handler performs.  The socket that [forward_roots] opens for the
    root at position [i] is socket [i].  [RequestSend] is a write towards the
    requester ([self.request.sendall] or [self.request[1].sendto]) with
    whether it went through. *)
Inductive event : Type :=
| Log (lvl : level) (m : logged)
| PrintExc (e : exn)
| Socket (i : nat) (k : sock_kind)
| SetTimeout (i : nat)
| Connect (i : nat) (addr : string * Z)
| SendAll (i : nat) (b : bytes)
| SendTo (i : nat) (b : bytes) (addr : string * Z)
| Recv (i : nat) (n : Z)
| Close (i : nat)
| RequestRecv (n : Z)
| RequestSend (b : bytes) (ok : bool).

(** How the upstream behind one forwarding socket behaves: [None] is
    success for [connect] and for [sendall]/[sendto]; [on_recv] is the
    reply waiting on the socket, or the error [recv] raises. *)
Record peer : Type := {
  on_connect : option exn;
  on_send : option exn;
  on_recv : result bytes
}.

(** [self.server.dns_config].  An entry of [client_denylist] is a Python
    tuple, which the loop of [get_denied_types] unpacks into two names. *)
Record dns_config : Type := {
  db_path : string;
  client_denylist : list (list string);
  roots : list (string * option Z)
}.

(** Everything outside the handler.  [dns_response] is the local lookup of
    [homedns.lib], which is not part of this module: it is taken as given. *)
Record world : Type := {
  config : dns_config;
  client_address : string * Z;
  request_stream : result bytes;
  request_datagram : bytes;
  request_send : bytes -> option exn;
  upstream : nat -> peer;
  dns_response : bytes -> string -> string -> list string ->
                 result (Z * option bytes)
}.

(** A computation: the events it performed, then its value or the exception
    it raised. *)
Definition M (A : Type) : Type := (list event * result A)%type.

Definition pure {A} (a : A) : M A := ([], Return a).

Definition raise {A} (e : exn) : M A := ([], Raise e).

Definition bind {A B} (m : M A) (f : A -> M B) : M B :=
  match snd m with
  | Return a => (fst m ++ fst (f a), snd (f a))
  | Raise e => (fst m, Raise e)
  end.

Notation "x <- m ;; k" := (bind m (fun x => k))
  (at level 61, m at next level, right associativity).
Notation "m ;; k" := (bind m (fun _ => k))
  (at level 61, right associativity).

Definition emit (e : event) : M unit := ([e], Return tt).

Definition lift {A} (r : result A) : M A := ([], r).

Definition failing (o : option exn) : M unit :=
  match o with
  | Some e => raise e
  | None => pure tt
  end.

Definition log (lvl : level) (m : logged) : M unit := emit (Log lvl m).

(** [try: body / except <catches> as e: handler e / else: orelse]. An
    exception of [orelse] or [handler] is not caught here. *)
Definition try_except_else {A B} (body : M A) (catches : exn -> bool)
    (handler : exn -> M B) (orelse : A -> M B) : M B :=
  match snd body with
  | Return a => (fst body ++ fst (orelse a), snd (orelse a))
  | Raise e =>
      if catches e
      then (fst body ++ fst (handler e), snd (handler e))
      else (fst body, Raise e)
  end.

(** [try: body / except Exception: handler]. Every [exn] is an [Exception]. *)
Definition try_except_Exception {A} (body : M A) (handler : exn -> M A) : M A :=
  try_except_else body (fun _ => true) handler pure.

(** ** Socket operations *)

Definition sock_connect (w : world) (i : nat) (addr : string * Z) : M unit :=
  emit (Connect i addr) ;; failing (on_connect (upstream w i)).

Definition sock_sendall (w : world) (i : nat) (b : bytes) : M unit :=
  emit (SendAll i b) ;; failing (on_send (upstream w i)).

Definition sock_sendto (w : world) (i : nat) (b : bytes) (addr : string * Z)
  : M unit :=
  emit (SendTo i b addr) ;; failing (on_send (upstream w i)).

Definition sock_recv (w : world) (i : nat) (n : Z) : M bytes :=
  emit (Recv i n) ;;
  reply <- lift (on_recv (upstream w i)) ;;
  pure (recv_upto n reply).

(** [self.request.recv(n)] of the TCP handler. *)
Definition request_recv (w : world) (n : Z) : M bytes :=
  emit (RequestRecv n) ;;
  stream <- lift (request_stream w) ;;
  pure (recv_upto n stream).

(** [self.request.sendall(b)] (TCP) and
    [self.request[1].sendto(b, self.client_address)] (UDP). *)
Definition request_write (w : world) (b : bytes) : M unit :=
  match request_send w b with
  | Some e => emit (RequestSend b false) ;; raise e
  | None => emit (RequestSend b true)
  end.

(** ** TCPRequestHandler *)

Definition TCP_get_data (w : world) : M bytes :=
  received <- request_recv w 8192 ;;
  lift (tcp_decode received).

Definition TCP_send_data (w : world) (data : bytes) : M unit :=
  framed <- lift (tcp_encode data) ;;
  request_write w framed.

Definition default_port (port : option Z) : Z :=
  match port with
  | None => 53
  | Some p => p
  end.

(** The loop of [TCPRequestHandler.forward_roots], at the root of position
    [i].  Only [connect] is inside the [try]; the exchange with the upstream
    is its [else] branch.  Creating the socket and setting its timeout are
    taken to succeed. *)
Fixpoint TCP_forward_from (w : world) (data : bytes) (i : nat)
    (rest : list (string * option Z)) : M unit :=
  match rest with
  | [] => pure tt
  | (ip, port) :: rest' =>
      emit (Socket i SOCK_STREAM) ;;
      emit (SetTimeout i) ;;
      let port := default_port port in
      log INFO (ForwardTo ip port) ;;
      try_except_else
        (sock_connect w i (ip, port))
        is_OSError
        (fun e =>
           log ERROR (Err e) ;;
           emit (Close i) ;;
           TCP_forward_from w data (S i) rest')
        (fun _ =>
           sz <- lift (struct_pack_H (len data)) ;;
           sock_sendall w i (sz ++ data) ;;
           recv <- sock_recv w i 8192 ;;
           log DEBUG (Data recv) ;;
           request_write w recv)
  end.

Definition TCP_forward_roots (w : world) (data : bytes) : M unit :=
  TCP_forward_from w data 0 (roots (config w)).

(** ** UDPRequestHandler *)

Definition UDP_get_data (w : world) : M bytes :=
  pure (strip (request_datagram w)).

Definition UDP_send_data (w : world) (data : bytes) : M unit :=
  request_write w data.

(** The loop of [UDPRequestHandler.forward_roots]: [sendto] and [recv] are
    both inside the [try].  Creating the socket and setting its timeout are
    taken to succeed. *)
Fixpoint UDP_forward_from (w : world) (data : bytes) (i : nat)
    (rest : list (string * option Z)) : M unit :=
  match rest with
  | [] => pure tt
  | (ip, port) :: rest' =>
      emit (Socket i SOCK_DGRAM) ;;
      emit (SetTimeout i) ;;
      let port := default_port port in
      log INFO (ForwardTo ip port) ;;
      try_except_else
        (sock_sendto w i data (ip, port) ;; sock_recv w i 8192)
        is_OSError
        (fun e =>
           log DEBUG (Err e) ;;
           UDP_forward_from w data (S i) rest')
        (fun recv =>
           log DEBUG (Data recv) ;;
           request_write w recv)
  end.

Definition UDP_forward_roots (w : world) (data : bytes) : M unit :=
  UDP_forward_from w data 0 (roots (config w)).

(** ** BaseRequestHandler *)

(** A handler class: its name and the three methods a subclass provides. *)
Record handler : Type := {
  class_name : string;
  get_data : world -> M bytes;
  send_data : world -> bytes -> M unit;
  forward_roots : world -> bytes -> M unit
}.

Definition NotImplementedError : exn := PyException "NotImplementedError".

Definition BaseRequestHandler : handler := {|
  class_name := "BaseRequestHandler";
  get_data := fun _ => raise NotImplementedError;
  send_data := fun _ _ => raise NotImplementedError;
  forward_roots := fun _ _ => raise NotImplementedError
|}.

Definition TCPRequestHandler : handler := {|
  class_name := "TCPRequestHandler";
  get_data := TCP_get_data;
  send_data := TCP_send_data;
  forward_roots := TCP_forward_roots
|}.

Definition UDPRequestHandler : handler := {|
  class_name := "UDPRequestHandler";
  get_data := UDP_get_data;
  send_data := UDP_send_data;
  forward_roots := UDP_forward_roots
|}.

Definition lower_ascii (c : ascii) : ascii :=
  let n := nat_of_ascii c in
  if ((65 <=? n) && (n <=? 90))%nat then ascii_of_nat (n + 32) else c.

(** [str.lower()] on ASCII text. *)
Fixpoint lower (s : string) : string :=
  match s with
  | EmptyString => EmptyString
  | String c s' => String (lower_ascii c) (lower s')
  end.

(** [self.__class__.__name__[:3]] *)
Definition name3 (h : handler) : string := substring 0 3 (class_name h).

(** The loop of [get_denied_types]; [ret] is the list built so far.  The
    target [ip, type] unpacks each entry and raises [ValueError] on a tuple
    that does not have two components. *)
Fixpoint denied_from (search_ip : string) (rest : list (list string))
    (ret : list string) : M (list string) :=
  match rest with
  | [] => pure ret
  | entry :: rest' =>
      match entry with
      | [ip; type] =>
          log DEBUG (Compare ip search_ip) ;;
          denied_from search_ip rest'
            (if String.eqb ip search_ip then ret ++ [type] else ret)
      | _ :: _ :: _ :: _ =>
          raise (ValueError "too many values to unpack (expected 2)")
      | _ => raise (ValueError "not enough values to unpack (expected 2)")
      end
  end.

Definition get_denied_types (w : world) (search_ip : string) : M (list string) :=
  denied_from search_ip (client_denylist (config w)) [].

(** The body of the [try] statement of [handle]: framing, the local lookup
    and the routing on its status code. *)
Definition handle_try (h : handler) (w : world) (denylist : list string)
  : M unit :=
  data <- get_data h w ;;
  r <- lift (dns_response w data (db_path (config w)) (lower (name3 h))
                          denylist) ;;
  let retcode := fst r in
  let retdata := snd r in
  log DEBUG (Code retcode) ;;
  if retcode =? 0 then
    match retdata with
    | Some retdata =>
        log INFO (Text "Find record in local db") ;;
        send_data h w retdata
    | None => pure tt
    end
  else if retcode =? 1 then
    log INFO (Text "Need forwarding") ;;
    forward_roots h w data
  else if retcode =? 2 then
    log INFO (Text "blocked.")
  else
    log ERROR (Text "undefined error code ").

(** [BaseRequestHandler.handle], for the class [h].  The access filter runs
    before the [try]; [except Exception] prints the traceback and the
    method ends. *)
Definition handle (h : handler) (w : world) : M unit :=
  log INFO (RequestLine (name3 h) (fst (client_address w))
                        (snd (client_address w))) ;;
  denylist <- get_denied_types w (fst (client_address w)) ;;
  log DEBUG (Denied denylist) ;;
  try_except_Exception
    (handle_try h w denylist)
    (fun e => emit (PrintExc e)).

(** ** What a run shows *)

(** The writes towards the requester, failed ones included. *)
Fixpoint request_sends (t : list event) : list bytes :=
  match t with
  | [] => []
  | RequestSend b _ :: t' => b :: request_sends t'
  | _ :: t' => request_sends t'
  end.

(** The replies that reached the requester. *)
Fixpoint replies (t : list event) : list bytes :=
  match t with
  | [] => []
  | RequestSend b true :: t' => b :: replies t'
  | _ :: t' => replies t'
  end.

(** The upstream addresses tried, in the order they were tried: one per
    [connect] (TCP) or [sendto] (UDP). *)
Fixpoint contacted (t : list event) : list (string * Z) :=
  match t with
  | [] => []
  | Connect _ addr :: t' => addr :: contacted t'
  | SendTo _ _ addr :: t' => addr :: contacted t'
  | _ :: t' => contacted t'
  end.

(** The forwarding sockets opened. *)
Fixpoint sockets (t : list event) : list nat :=
  match t with
  | [] => []
  | Socket i _ :: t' => i :: sockets t'
  | _ :: t' => sockets t'
  end.

(** The exceptions that were logged or printed. *)
Fixpoint reported (t : list event) : list exn :=
  match t with
  | [] => []
  | Log _ (Err e) :: t' => e :: reported t'
  | PrintExc e :: t' => e :: reported t'
  | _ :: t' => reported t'
  end.

Definition target_addr (root : string * option Z) : string * Z :=
  (fst root, default_port (snd root)).

(** ** Sample worlds *)

(** A world for the examples: a requester at 10.0.0.7, nothing configured,
    every socket operation succeeding, the local lookup answering "forward". *)
Definition quiet_world : world := {|
  config := {| db_path := "dns.db"; client_denylist := []; roots := [] |};
  client_address := ("10.0.0.7", 40000);
  request_stream := Return [];
  request_datagram := [];
  request_send := fun _ => None;
  upstream := fun _ =>
    {| on_connect := None; on_send := None; on_recv := Return [] |};
  dns_response := fun _ _ _ _ => Return (1, None)
|}.

Definition with_stream (w : world) (stream : result bytes) : world := {|
  config := config w;
  client_address := client_address w;
  request_stream := stream;
  request_datagram := request_datagram w;
  request_send := request_send w;
  upstream := upstream w;
  dns_response := dns_response w
|}.

Definition with_config (w : world) (c : dns_config) : world := {|
  config := c;
  client_address := client_address w;
  request_stream := request_stream w;
  request_datagram := request_datagram w;
  request_send := request_send w;
  upstream := upstream w;
  dns_response := dns_response w
|}.

Definition with_upstream (w : world) (u : nat -> peer) : world := {|
  config := config w;
  client_address := client_address w;
  request_stream := request_stream w;
  request_datagram := request_datagram w;
  request_send := request_send w;
  upstream := u;
  dns_response := dns_response w
|}.

(** A denial rule of the configuration, as the tuple the loop unpacks. *)
Definition rule_tuple (rule : string * string) : list string :=
  [fst rule; snd rule].

(** ** Upstream targets that yield a reply *)

(** The reply the root at position [i] gives when it is tried over TCP:
    there is one when connecting, framing, sending and receiving all
    succeed. *)
Definition TCP_reply (w : world) (data : bytes) (i : nat) : option bytes :=
  match on_connect (upstream w i), struct_pack_H (len data),
        on_send (upstream w i), on_recv (upstream w i) with
  | None, Return _, None, Return reply => Some (recv_upto 8192 reply)
  | _, _, _, _ => None
  end.

(** The same over UDP: sending and receiving succeed. *)
Definition UDP_reply (w : world) (i : nat) : option bytes :=
  match on_send (upstream w i), on_recv (upstream w i) with
  | None, Return reply => Some (recv_upto 8192 reply)
  | _, _ => None
  end.

(** A socket error on [connect], the failure the TCP loop recovers from. *)
Definition TCP_connect_fails (w : world) (i : nat) : Prop :=
  exists msg, on_connect (upstream w i) = Some (OSError msg).

(** A socket error on [sendto] or on [recv], which the UDP loop recovers
    from. *)
Definition UDP_exchange_fails (w : world) (i : nat) : Prop :=
  (exists msg, on_send (upstream w i) = Some (OSError msg)) \/
  (on_send (upstream w i) = None /\
   exists msg, on_recv (upstream w i) = Raise (OSError msg)).

(** What a run of a forwarding loop over [rest], started at position [i],
    shows when each position's reply is given by [reply] and [fails] are the
    failures the loop recovers from: [k] roots were tried. *)
Definition forward_run (reply : nat -> option bytes) (fails : nat -> Prop)
    (i : nat) (rest : list (string * option Z)) (t : list event) (k : nat)
  : Prop :=
  (k <= List.length rest)%nat /\
  contacted t = firstn k (map target_addr rest) /\
  sockets t = seq i k /\
  (forall j, (S j < k)%nat -> reply (i + j)%nat = None) /\
  request_sends t =
    match k with
    | O => []
    | S j => match reply (i + j)%nat with Some r => [r] | None => [] end
    end /\
  (forall n r, (n < List.length rest)%nat ->
               reply (i + n)%nat = Some r ->
               (forall j, (j < n)%nat -> fails (i + j)%nat) ->
               k = S n).

(** A computation that writes nothing to the requester. *)
Definition mute {A} (m : M A) : Prop := replies (fst m) = [].

(** A computation that, when it raises, has delivered nothing to the
    requester. *)
Definition silent_failure {A} (m : M A) : Prop :=
  forall e, snd m = Raise e -> replies (fst m) = [].

(** A world in which the first root refuses every exchange with a socket
    error, the second answers 52, and the others answer nothing. *)
Definition failover_world : world :=
  with_upstream
    (with_config quiet_world
       {| db_path := "dns.db"; client_denylist := [];
          roots := [("192.0.2.1", None); ("192.0.2.2", Some 5353);
                    ("192.0.2.3", None)] |})
    (fun i =>
       match i with
       | O => {| on_connect := Some (OSError "Connection refused");
                 on_send := Some (OSError "Network is unreachable");
                 on_recv := Raise (OSError "timed out") |}
       | S O => {| on_connect := None; on_send := None;
                   on_recv := Return [x52] |}
       | _ => {| on_connect := None; on_send := None; on_recv := Return [] |}
       end).

(** A world in which the first root accepts the connection and the query
    but never answers, so that [recv] times out, and the second answers 52. *)
Definition recv_timeout_world : world :=
  with_upstream
    (with_config quiet_world
       {| db_path := "dns.db"; client_denylist := [];
          roots := [("192.0.2.1", None); ("192.0.2.2", Some 5353)] |})
    (fun i =>
       match i with
       | O => {| on_connect := None; on_send := None;
                 on_recv := Raise (OSError "timed out") |}
       | _ => {| on_connect := None; on_send := None;
                 on_recv := Return [x52] |}
       end).

(** The events and the outcome of the routing of [handle_try], once the
    lookup has returned [(retcode, retdata)] for the query [data]. *)
Definition route (h : handler) (w : world) (data : bytes) (retcode : Z)
    (retdata : option bytes) : M unit :=
  if retcode =? 0 then
    match retdata with
    | Some retdata =>
        (Log INFO (Text "Find record in local db")
           :: fst (send_data h w retdata),
         snd (send_data h w retdata))
    | None => ([], Return tt)
    end
  else if retcode =? 1 then
    (Log INFO (Text "Need forwarding") :: fst (forward_roots h w data),
     snd (forward_roots h w data))
  else if retcode =? 2 then
    ([Log INFO (Text "blocked.")], Return tt)
  else
    ([Log ERROR (Text "undefined error code ")], Return tt).

(** A trace without traffic: nothing written to the requester, no
    forwarding socket opened, no upstream contacted. *)
Definition no_traffic (t : list event) : Prop :=
  request_sends t = [] /\ sockets t = [] /\ contacted t = [].

(** A world whose denylist holds a tuple of one component. *)
Definition malformed_denylist_world : world :=
  with_config quiet_world
    {| db_path := "dns.db"; client_denylist := [["10.0.0.7"]]; roots := [] |}.

(** A world whose requester sent the framed query 61 (TCP) or the datagram
    61 (UDP) and whose lookup finds [answer]. *)
Definition answering_world (answer : Z * option bytes) : world := {|
  config := {| db_path := "dns.db"; client_denylist := []; roots := [] |};
  client_address := ("10.0.0.7", 40000);
  request_stream := Return [x00; x01; x61];
  request_datagram := [x61];
  request_send := fun _ => None;
  upstream := fun _ =>
    {| on_connect := None; on_send := None; on_recv := Return [] |};
  dns_response := fun _ _ _ _ => Return answer
|}.

(** ** Further observations on a run *)

(** The forwarding sockets that were closed. *)
Fixpoint closed (t : list event) : list nat :=
  match t with
  | [] => []
  | Close i :: t' => i :: closed t'
  | _ :: t' => closed t'
  end.

(** The payloads handed to upstream sockets ([sendall] or [sendto]). *)
Fixpoint upstream_sends (t : list event) : list bytes :=
  match t with
  | [] => []
  | SendAll _ b :: t' => b :: upstream_sends t'
  | SendTo _ b _ :: t' => b :: upstream_sends t'
  | _ :: t' => upstream_sends t'
  end.

Definition level_eqb (a b : level) : bool :=
  match a, b with
  | DEBUG, DEBUG | INFO, INFO | ERROR, ERROR => true
  | _, _ => false
  end.

(** The exceptions passed to the logger at level [lvl]. *)
Fixpoint logged_errors (lvl : level) (t : list event) : list exn :=
  match t with
  | [] => []
  | Log l (Err e) :: t' =>
      if level_eqb l lvl then e :: logged_errors lvl t'
      else logged_errors lvl t'
  | _ :: t' => logged_errors lvl t'
  end.

(** Whether every operation on a forwarding socket comes after the timeout
    was set on that socket; [armed] are the sockets it is already set on. *)
Fixpoint timeouts_first (armed : list nat) (t : list event) : bool :=
  match t with
  | [] => true
  | SetTimeout i :: t' => timeouts_first (i :: armed) t'
  | Connect i _ :: t' => existsb (Nat.eqb i) armed && timeouts_first armed t'
  | SendAll i _ :: t' => existsb (Nat.eqb i) armed && timeouts_first armed t'
  | SendTo i _ _ :: t' => existsb (Nat.eqb i) armed && timeouts_first armed t'
  | Recv i _ :: t' => existsb (Nat.eqb i) armed && timeouts_first armed t'
  | _ :: t' => timeouts_first armed t'
  end.

(** The socket error that makes the UDP loop skip the root at position [i],
    if there is one: the error of [sendto], else the error of [recv]. *)
Definition UDP_error (w : world) (i : nat) : option exn :=
  match on_send (upstream w i) with
  | Some e => Some e
  | None =>
      match on_recv (upstream w i) with
      | Raise e => Some e
      | Return _ => None
      end
  end.

(** A world in which no root can be reached: every socket operation fails
    with a socket error. *)
Definition unreachable_world : world :=
  with_upstream
    (with_config quiet_world
       {| db_path := "dns.db"; client_denylist := [];
          roots := [("192.0.2.1", None); ("192.0.2.2", Some 5353)] |})
    (fun i =>
       {| on_connect := Some (OSError "Connection refused");
          on_send := Some (OSError "Network is unreachable");
          on_recv := Raise (OSError "timed out") |}).

(** The exchange on the connected TCP socket [i] raises [e]: framing the
    query fails, or [sendall] fails, or [recv] fails. *)
Definition TCP_exchange_raises (w : world) (data : bytes) (i : nat) (e : exn)
  : Prop :=
  struct_pack_H (len data) = Raise e \/
  (exists sz,
      struct_pack_H (len data) = Return sz /\
      (on_send (upstream w i) = Some e \/
       (on_send (upstream w i) = None /\
        on_recv (upstream w i) = Raise e))).

(** The exchange on the UDP socket [i] raises [e], which is no socket
    error: [sendto] fails, or [recv] fails. *)
Definition UDP_exchange_raises (w : world) (i : nat) (e : exn) : Prop :=
  is_OSError e = false /\
  (on_send (upstream w i) = Some e \/
   (on_send (upstream w i) = None /\ on_recv (upstream w i) = Raise e)).

(** * Properties *)

(** ** The monad *)

Lemma bind_pure {A B} (a : A) (f : A -> M B) : bind (pure a) f = f a.
Proof. unfold bind, pure; simpl. now destruct (f a). Qed.

Lemma bind_emit {B} (e : event) (f : unit -> M B) :
  bind (emit e) f = (e :: fst (f tt), snd (f tt)).
Proof. reflexivity. Qed.

Lemma bind_raise {A B} (e : exn) (f : A -> M B) : bind (raise e) f = raise e.
Proof. reflexivity. Qed.

Lemma bind_lift_Return {A B} (a : A) (f : A -> M B) :
  bind (lift (Return a)) f = f a.
Proof. unfold bind, lift; simpl. now destruct (f a). Qed.

Lemma bind_lift_Raise {A B} (e : exn) (f : A -> M B) :
  bind (lift (Raise e)) f = raise e.
Proof. reflexivity. Qed.

Lemma fst_bind_Return {A B} (m : M A) (f : A -> M B) (a : A) :
  snd m = Return a -> bind m f = (fst m ++ fst (f a), snd (f a)).
Proof. unfold bind; intros ->; reflexivity. Qed.

Lemma bind_Raise {A B} (m : M A) (f : A -> M B) (e : exn) :
  snd m = Raise e -> bind m f = (fst m, Raise e).
Proof. unfold bind; intros ->; reflexivity. Qed.

(** ** Bytes *)

Lemma byte_to_of_Z (z : Z) : 0 <= z < 256 -> byte_to_Z (byte_of_Z z) = z.
Proof.
  intros Hz. unfold byte_to_Z, byte_of_Z.
  destruct (Byte.of_N (Z.to_N z)) as [b|] eqn:E.
  - apply Byte.to_of_N in E. rewrite E. lia.
  - apply Byte.of_N_None_iff in E. lia.
Qed.

Lemma byte_to_Z_range (b : byte) : 0 <= byte_to_Z b < 256.
Proof.
  unfold byte_to_Z. pose proof (Byte.to_N_bounded b). lia.
Qed.

Lemma len_app {A} (l1 l2 : list A) : len (l1 ++ l2) = len l1 + len l2.
Proof. unfold len. rewrite length_app. lia. Qed.

Lemma len_nonneg {A} (l : list A) : 0 <= len l.
Proof. unfold len. lia. Qed.

Lemma lstrip_id (data : bytes) :
  is_space (hd x00 data) = false -> lstrip data = data.
Proof.
  destruct data as [|b rest]; simpl; [reflexivity|]. now intros ->.
Qed.

Lemma rstrip_id (data : bytes) :
  is_space (last data x00) = false -> rstrip data = data.
Proof.
  unfold rstrip. destruct data as [|b rest] using rev_ind; [reflexivity|].
  rewrite last_last, rev_app_distr. simpl. intros ->.
  simpl. now rewrite rev_involutive.
Qed.

Lemma strip_id (data : bytes) :
  is_space (hd x00 data) = false -> is_space (last data x00) = false ->
  strip data = data.
Proof.
  intros Hh Hl. unfold strip. rewrite (lstrip_id _ Hh). now apply rstrip_id.
Qed.

Lemma recv_upto_all (n : Z) (stream : bytes) :
  len stream <= n -> recv_upto n stream = stream.
Proof.
  unfold recv_upto, len. intros H. apply firstn_all2. lia.
Qed.

(** ** Transport framer *)

Lemma struct_unpack_pack (n : Z) (sz : bytes) :
  struct_pack_H n = Return sz -> struct_unpack_H sz = Return n.
Proof.
  unfold struct_pack_H.
  destruct ((0 <=? n) && (n <=? 65535)) eqn:E; [|discriminate].
  apply andb_true_iff in E. destruct E as [E1 E2].
  apply Z.leb_le in E1, E2.
  intros [= <-]. cbn [struct_unpack_H].
  rewrite !byte_to_of_Z.
  - f_equal. pose proof (Z.div_mod n 256 ltac:(lia)). lia.
  - apply Z.mod_pos_bound. lia.
  - split; [apply Z.div_pos; lia | apply Z.div_lt_upper_bound; lia].
Qed.

Lemma tcp_decode_framed (hi lo : byte) (query : bytes) :
  is_space hi = false ->
  is_space (last (hi :: lo :: query) x00) = false ->
  256 * byte_to_Z hi + byte_to_Z lo = len query ->
  tcp_decode (hi :: lo :: query) = Return query.
Proof.
  intros Hhi Hlast Hsz. unfold tcp_decode.
  rewrite strip_id by assumption.
  cbn [firstn struct_unpack_H skipn]. rewrite Hsz.
  replace (len (hi :: lo :: query) - 2) with (len query)
    by (unfold len; cbn [List.length]; lia).
  rewrite Z.gtb_ltb, Z.ltb_irrefl. reflexivity.
Qed.

(** The framing on concrete bytes. *)
Example strip_both_ends :
  strip [x20; x0a; x61; x20; x62; x0d; x09] = [x61; x20; x62].
Proof. reflexivity. Qed.

Example pack_258 : struct_pack_H 258 = Return [x01; x02].
Proof. reflexivity. Qed.

Example pack_65536 :
  struct_pack_H 65536 =
  Raise (StructError "'H' format requires 0 <= number <= 65535").
Proof. reflexivity. Qed.

Example decode_exact : tcp_decode [x00; x02; x61; x62] = Return [x61; x62].
Proof. reflexivity. Qed.

Example decode_short_payload :
  tcp_decode [x00; x03; x61; x62] = Raise too_big_packet.
Proof. reflexivity. Qed.

Example decode_long_payload :
  tcp_decode [x00; x01; x61; x62] = Raise wrong_size_packet.
Proof. reflexivity. Qed.

Example lower_class_name : lower (name3 TCPRequestHandler) = "tcp".
Proof. reflexivity. Qed.

Lemma TCP_get_data_decodes (w : world) (stream : bytes) :
  request_stream w = Return stream ->
  TCP_get_data w = ([RequestRecv 8192], tcp_decode (recv_upto 8192 stream)).
Proof.
  intros H. unfold TCP_get_data, request_recv, bind, lift, emit, pure.
  rewrite H. reflexivity.
Qed.

Lemma TCP_send_data_writes (w : world) (data framed : bytes) :
  tcp_encode data = Return framed ->
  TCP_send_data w data = request_write w framed.
Proof.
  intros H. unfold TCP_send_data. rewrite H. apply bind_lift_Return.
Qed.

Lemma request_sends_write (w : world) (b : bytes) :
  request_sends (fst (request_write w b)) = [b].
Proof.
  unfold request_write. now destruct (request_send w b).
Qed.

Lemma is_space_byte_of_nat (n : nat) :
  (n < 32)%nat ->
  is_space (byte_of_Z (Z.of_nat n)) = true -> (9 <= n <= 13)%nat.
Proof.
  intros Hn.
  do 32 (destruct n as [|n]; [vm_compute; intros; (lia || discriminate)|]).
  lia.
Qed.

Lemma prefix_not_space (n : Z) :
  0 <= n <= 8190 -> ~ (2304 <= n <= 3583) ->
  is_space (byte_of_Z (n / 256)) = false.
Proof.
  intros Hn Hout.
  destruct (is_space (byte_of_Z (n / 256))) eqn:E; [exfalso|reflexivity].
  assert (Hq : 0 <= n / 256 < 32)
    by (split; [apply Z.div_pos; lia | apply Z.div_lt_upper_bound; lia]).
  rewrite <- (Z2Nat.id (n / 256)) in E by lia.
  apply is_space_byte_of_nat in E; [|lia].
  pose proof (Z.div_mod n 256 ltac:(lia)).
  pose proof (Z.mod_pos_bound n 256 ltac:(lia)).
  lia.
Qed.

(** C2, as stated, fails: a query that is a single space byte is framed as
    00 01 20; [get_data] strips the trailing space from what it reads and then
    rejects the frame, whose declared size 1 exceeds the 0 bytes left. *)
Lemma C2_roundtrip_fails_on_trailing_space :
  tcp_encode [x20] = Return [x00; x01; x20] /\
  tcp_decode (recv_upto 8192 [x00; x01; x20]) = Raise too_big_packet /\
  ~ (forall query framed : bytes,
        tcp_encode query = Return framed ->
        tcp_decode (recv_upto 8192 framed) = Return query).
Proof.
  split; [reflexivity|]. split; [reflexivity|].
  intros H. specialize (H [x20] [x00; x01; x20] eq_refl). discriminate H.
Qed.

(** C2, amended: for a query of at most 8190 bytes whose last byte is not
    ASCII whitespace and whose length is not within 2304..3583 (lengths whose
    high prefix byte is whitespace), [send_data] writes the query behind its
    2-byte big-endian length, and [get_data] on a stream holding exactly what
    was written returns the query unchanged. *)
Theorem C2_tcp_roundtrip (w1 : world) (query : bytes) :
  len query <= 8190 ->
  ~ (2304 <= len query <= 3583) ->
  is_space (last query x00) = false ->
  exists sz framed,
    struct_pack_H (len query) = Return sz /\
    List.length sz = 2%nat /\
    framed = sz ++ query /\
    tcp_encode query = Return framed /\
    request_sends (fst (TCP_send_data w1 query)) = [framed] /\
    forall w2, request_stream w2 = Return framed ->
               snd (TCP_get_data w2) = Return query.
Proof.
  intros Hlen Hout Hlast.
  pose proof (len_nonneg query) as H0.
  assert (Hp : struct_pack_H (len query) =
               Return [byte_of_Z (len query / 256); byte_of_Z (len query mod 256)]).
  { unfold struct_pack_H.
    replace ((0 <=? len query) && (len query <=? 65535)) with true; [reflexivity|].
    symmetry. apply andb_true_iff. split; apply Z.leb_le; lia. }
  exists [byte_of_Z (len query / 256); byte_of_Z (len query mod 256)].
  eexists. split; [exact Hp|]. split; [reflexivity|]. split; [reflexivity|].
  assert (He : tcp_encode query =
               Return ([byte_of_Z (len query / 256);
                        byte_of_Z (len query mod 256)] ++ query))
    by (unfold tcp_encode; now rewrite Hp).
  split; [exact He|]. split.
  - rewrite (TCP_send_data_writes _ _ _ He). apply request_sends_write.
  - intros w2 Hs. rewrite (TCP_get_data_decodes _ _ Hs). cbn [snd].
    rewrite recv_upto_all
      by (rewrite len_app; unfold len at 1; cbn [List.length]; lia).
    cbn [app]. apply tcp_decode_framed.
    + apply prefix_not_space; lia.
    + destruct query as [|b q]; [|exact Hlast].
      reflexivity.
    + apply struct_unpack_pack in Hp. cbn [struct_unpack_H] in Hp.
      now injection Hp.
Qed.

Lemma C2_tcp_roundtrip_witness :
  exists sz framed,
    struct_pack_H (len [x61; x62]) = Return sz /\
    List.length sz = 2%nat /\
    framed = sz ++ [x61; x62] /\
    tcp_encode [x61; x62] = Return framed /\
    request_sends (fst (TCP_send_data quiet_world [x61; x62])) = [framed] /\
    forall w2, request_stream w2 = Return framed ->
               snd (TCP_get_data w2) = Return [x61; x62].
Proof.
  apply (C2_tcp_roundtrip quiet_world [x61; x62]).
  - vm_compute. discriminate.
  - vm_compute. intros [H _]. apply H. reflexivity.
  - reflexivity.
Defined.

(** C3, as stated, fails: the size check is made on the stripped read, not
    on the received bytes.  The received bytes 00 01 20 declare one byte and
    carry one, yet are rejected with "Too big TCP packet"; the received
    bytes 00 02 61 62 0a declare two bytes and carry three, yet are
    accepted. *)
Lemma C3_size_check_is_not_on_the_received_bytes :
  (struct_unpack_H (firstn 2 [x00; x01; x20]) = Return 1 /\
   1 = len [x00; x01; x20] - 2 /\
   snd (TCP_get_data (with_stream quiet_world (Return [x00; x01; x20]))) =
     Raise too_big_packet) /\
  (struct_unpack_H (firstn 2 [x00; x02; x61; x62; x0a]) = Return 2 /\
   2 <> len [x00; x02; x61; x62; x0a] - 2 /\
   snd (TCP_get_data
          (with_stream quiet_world (Return [x00; x02; x61; x62; x0a]))) =
     Return [x61; x62]) /\
  ~ (forall (w : world) (received : bytes) (sz : Z),
        request_stream w = Return received ->
        struct_unpack_H (firstn 2 received) = Return sz ->
        ((exists query, snd (TCP_get_data w) = Return query) <->
         sz = len received - 2)).
Proof.
  split; [|split].
  - repeat split.
  - split; [reflexivity|]. split; [discriminate | reflexivity].
  - intros H.
    destruct (H (with_stream quiet_world (Return [x00; x01; x20]))
                [x00; x01; x20] 1 eq_refl eq_refl) as [_ Hback].
    destruct (Hback eq_refl) as [query Hq]. discriminate Hq.
Qed.

(** C3, amended: [get_data] strips ASCII whitespace from both ends of what
    it read (at most 8192 bytes) and takes the first two bytes of the
    stripped bytes as the big-endian size [sz].  It succeeds exactly when
    [sz] is the number of stripped bytes after the prefix, and then returns
    those bytes; when fewer bytes follow than declared (undersized packet)
    it raises "Too big TCP packet", when more follow (oversized packet) it
    raises "Wrong size of TCP packet".  For received bytes, at most 8192,
    that neither begin nor end with whitespace, the stripped bytes are the
    received bytes themselves. *)
Theorem C3_tcp_decode_size_check (w : world) (stream : bytes) (sz : Z) :
  request_stream w = Return stream ->
  let data := strip (recv_upto 8192 stream) in
  struct_unpack_H (firstn 2 data) = Return sz ->
  ((exists query, snd (TCP_get_data w) = Return query) <-> sz = len data - 2) /\
  (sz = len data - 2 -> snd (TCP_get_data w) = Return (skipn 2 data)) /\
  (len data - 2 < sz -> snd (TCP_get_data w) = Raise too_big_packet) /\
  (sz < len data - 2 -> snd (TCP_get_data w) = Raise wrong_size_packet) /\
  too_big_packet <> wrong_size_packet /\
  (len stream <= 8192 ->
   is_space (hd x00 stream) = false ->
   is_space (last stream x00) = false ->
   data = stream).
Proof.
  intros Hs data Hsz.
  assert (Hraw : len stream <= 8192 ->
                 is_space (hd x00 stream) = false ->
                 is_space (last stream x00) = false ->
                 data = stream).
  { intros Hlen Hh Hl. unfold data. rewrite (recv_upto_all _ _ Hlen).
    apply strip_id; assumption. }
  assert (Hchecks :
    ((exists query, snd (TCP_get_data w) = Return query) <->
     sz = len data - 2) /\
    (sz = len data - 2 -> snd (TCP_get_data w) = Return (skipn 2 data)) /\
    (len data - 2 < sz -> snd (TCP_get_data w) = Raise too_big_packet) /\
    (sz < len data - 2 -> snd (TCP_get_data w) = Raise wrong_size_packet) /\
    too_big_packet <> wrong_size_packet).
  { clear Hraw.
    rewrite (TCP_get_data_decodes _ _ Hs). cbn [snd].
    unfold tcp_decode. fold data. rewrite Hsz. rewrite Z.gtb_ltb.
    destruct (Z.ltb_spec sz (len data - 2)) as [Hlt|Hge].
    - repeat split; try (intros; lia); try discriminate.
      intros [q Hq]. discriminate Hq.
    - destruct (Z.ltb_spec (len data - 2) sz) as [Hgt|Hle].
      + repeat split; try (intros; lia); try discriminate.
        intros [q Hq]. discriminate Hq.
      + repeat split; try (intros; lia); try discriminate.
        intros _. now exists (skipn 2 data). }
  destruct Hchecks as (H1 & H2 & H3 & H4 & H5).
  split; [exact H1|]. split; [exact H2|]. split; [exact H3|].
  split; [exact H4|]. split; [exact H5 | exact Hraw].
Qed.

Lemma C3_tcp_decode_size_check_witness :
  let w := with_stream quiet_world (Return [x00; x02; x61; x62]) in
  let data := strip (recv_upto 8192 [x00; x02; x61; x62]) in
  ((exists query, snd (TCP_get_data w) = Return query) <-> 2 = len data - 2) /\
  (2 = len data - 2 -> snd (TCP_get_data w) = Return (skipn 2 data)) /\
  (len data - 2 < 2 -> snd (TCP_get_data w) = Raise too_big_packet) /\
  (2 < len data - 2 -> snd (TCP_get_data w) = Raise wrong_size_packet) /\
  too_big_packet <> wrong_size_packet /\
  (len [x00; x02; x61; x62] <= 8192 ->
   is_space (hd x00 [x00; x02; x61; x62]) = false ->
   is_space (last [x00; x02; x61; x62] x00) = false ->
   data = [x00; x02; x61; x62]).
Proof.
  apply (C3_tcp_decode_size_check
           (with_stream quiet_world (Return [x00; x02; x61; x62]))
           [x00; x02; x61; x62] 2).
  - reflexivity.
  - reflexivity.
Defined.

(** C9: when what [get_data] read is, once stripped, shorter than two bytes
    (an empty read included), it never returns: [struct.unpack] raises
    [struct.error], which is neither of the two size errors. *)
Theorem C9_tcp_decode_short_read (w : world) (stream : bytes) :
  request_stream w = Return stream ->
  (List.length (strip (recv_upto 8192 stream)) < 2)%nat ->
  exists e,
    snd (TCP_get_data w) = Raise e /\
    e = StructError "unpack requires a buffer of 2 bytes" /\
    e <> too_big_packet /\ e <> wrong_size_packet.
Proof.
  intros Hs Hshort.
  rewrite (TCP_get_data_decodes _ _ Hs). cbn [snd].
  unfold tcp_decode.
  destruct (strip (recv_upto 8192 stream)) as [|b0 [|b1 rest]].
  - eexists. repeat split; discriminate.
  - eexists. repeat split; discriminate.
  - simpl in Hshort. lia.
Qed.

Lemma C9_tcp_decode_short_read_witness :
  exists e,
    snd (TCP_get_data (with_stream quiet_world (Return [x20; x41; x0a]))) =
      Raise e /\
    e = StructError "unpack requires a buffer of 2 bytes" /\
    e <> too_big_packet /\ e <> wrong_size_packet.
Proof.
  apply (C9_tcp_decode_short_read
           (with_stream quiet_world (Return [x20; x41; x0a]))
           [x20; x41; x0a]).
  - reflexivity.
  - vm_compute. lia.
Defined.

(** ** Access filter *)

Lemma denied_from_rules (search_ip : string) (rules : list (string * string)) :
  forall ret,
    denied_from search_ip (map rule_tuple rules) ret =
    (map (fun rule => Log DEBUG (Compare (fst rule) search_ip)) rules,
     Return (ret ++ map snd
               (filter (fun rule => String.eqb (fst rule) search_ip) rules))).
Proof.
  induction rules as [|[ip type] rules IH]; intros ret.
  - simpl. now rewrite app_nil_r.
  - cbn [map rule_tuple fst snd denied_from filter].
    unfold log. rewrite bind_emit, IH. cbn [fst snd].
    destruct (String.eqb ip search_ip); [|reflexivity].
    cbn [map snd]. now rewrite <- app_assoc.
Qed.

(** C7, as stated, fails: the result is a list in which every matching rule
    leaves its record type, so two rules for the same client and type give
    the type twice. *)
Lemma C7_duplicates_do_not_collapse :
  let w := with_config quiet_world
             {| db_path := "dns.db";
                client_denylist := [["10.0.0.1"; "A"]; ["10.0.0.1"; "A"]];
                roots := [] |} in
  snd (get_denied_types w "10.0.0.1") = Return ["A"; "A"] /\
  ~ (forall (w : world) (ip : string) (l : list string),
        snd (get_denied_types w ip) = Return l -> NoDup l).
Proof.
  split; [reflexivity|].
  intros H.
  specialize (H (with_config quiet_world
                   {| db_path := "dns.db";
                      client_denylist := [["10.0.0.1"; "A"]; ["10.0.0.1"; "A"]];
                      roots := [] |}) "10.0.0.1" ["A"; "A"] eq_refl).
  inversion H as [|x l Hnotin Hl]; subst. apply Hnotin. now left.
Qed.

(** C7, amended: [get_denied_types] returns the list of the record types
    of the rules whose IP is string-equal to the client's, one entry per
    matching rule, in rule order (duplicates are kept).  A type is in the
    result exactly when some rule pairs it with that IP, and the result is
    empty when no rule's IP matches. *)
Theorem C7_denied_types (w : world) (search_ip : string)
    (rules : list (string * string)) :
  client_denylist (config w) = map rule_tuple rules ->
  let matching := filter (fun rule => String.eqb (fst rule) search_ip) rules in
  snd (get_denied_types w search_ip) = Return (map snd matching) /\
  (forall type, In type (map snd matching) <-> In (search_ip, type) rules) /\
  ((forall rule, In rule rules -> fst rule <> search_ip) ->
   snd (get_denied_types w search_ip) = Return []).
Proof.
  intros Hcfg matching.
  assert (Hres : snd (get_denied_types w search_ip) = Return (map snd matching))
    by (unfold get_denied_types; rewrite Hcfg, denied_from_rules; reflexivity).
  split; [exact Hres|]. split.
  - intros type. unfold matching. rewrite in_map_iff. split.
    + intros [[ip ty] [Hty Hin]]. apply filter_In in Hin.
      destruct Hin as [Hin Heq]. cbn [fst snd] in *.
      apply String.eqb_eq in Heq. now subst.
    + intros Hin. exists (search_ip, type). split; [reflexivity|].
      apply filter_In. split; [exact Hin|]. apply String.eqb_refl.
  - intros Hnone. rewrite Hres. f_equal.
    unfold matching.
    replace (filter (fun rule => String.eqb (fst rule) search_ip) rules)
      with (@nil (string * string)); [reflexivity|].
    symmetry. clear Hres matching Hcfg.
    induction rules as [|rule rules IH]; [reflexivity|].
    cbn [filter].
    destruct (String.eqb_spec (fst rule) search_ip) as [Heq|Hne].
    + exfalso. apply (Hnone rule); [now left | exact Heq].
    + apply IH. intros r Hr. apply Hnone. now right.
Qed.

Lemma C7_denied_types_witness :
  let rules := [("10.0.0.1", "A"); ("10.0.0.1", "AAAA"); ("10.0.0.2", "MX")] in
  let w := with_config quiet_world
             {| db_path := "dns.db";
                client_denylist := map rule_tuple rules;
                roots := [] |} in
  snd (get_denied_types w "10.0.0.1") = Return ["A"; "AAAA"] /\
  snd (get_denied_types w "10.0.0.3") = Return [].
Proof.
  intros rules w. split.
  - exact (proj1 (C7_denied_types w "10.0.0.1" rules eq_refl)).
  - apply (C7_denied_types w "10.0.0.3" rules eq_refl).
    intros rule [<-|[<-|[<-|[]]]]; discriminate.
Defined.

(** ** Forwarder *)

(** One turn of the TCP loop, by what the upstream does. *)
Lemma TCP_forward_step (w : world) (data : bytes) (i : nat) (ip : string)
    (port : option Z) (rest : list (string * option Z)) :
  TCP_forward_from w data i ((ip, port) :: rest) =
  let pre := [Socket i SOCK_STREAM; SetTimeout i;
              Log INFO (ForwardTo ip (default_port port));
              Connect i (ip, default_port port)] in
  match on_connect (upstream w i) with
  | Some e =>
      if is_OSError e
      then (pre ++ [Log ERROR (Err e); Close i]
                ++ fst (TCP_forward_from w data (S i) rest),
            snd (TCP_forward_from w data (S i) rest))
      else (pre, Raise e)
  | None =>
      match struct_pack_H (len data) with
      | Raise e => (pre, Raise e)
      | Return sz =>
          match on_send (upstream w i) with
          | Some e => (pre ++ [SendAll i (sz ++ data)], Raise e)
          | None =>
              match on_recv (upstream w i) with
              | Raise e =>
                  (pre ++ [SendAll i (sz ++ data); Recv i 8192], Raise e)
              | Return reply =>
                  let recv := recv_upto 8192 reply in
                  (pre ++ [SendAll i (sz ++ data); Recv i 8192;
                           Log DEBUG (Data recv)]
                       ++ fst (request_write w recv),
                   snd (request_write w recv))
              end
          end
      end
  end.
Proof.
  cbn [TCP_forward_from].
  unfold try_except_else, sock_connect, sock_sendall, sock_recv, log, bind,
    emit, failing, lift, pure, raise.
  cbn [fst snd app].
  destruct (on_connect (upstream w i)) as [e|]; cbn [fst snd app].
  - destruct (is_OSError e); reflexivity.
  - destruct (struct_pack_H (len data)) as [sz|e]; cbn [fst snd app];
      [|reflexivity].
    destruct (on_send (upstream w i)) as [e|]; cbn [fst snd app];
      [reflexivity|].
    destruct (on_recv (upstream w i)) as [reply|e]; cbn [fst snd app];
      reflexivity.
Qed.

(** One turn of the UDP loop. *)
Lemma UDP_forward_step (w : world) (data : bytes) (i : nat) (ip : string)
    (port : option Z) (rest : list (string * option Z)) :
  UDP_forward_from w data i ((ip, port) :: rest) =
  let pre := [Socket i SOCK_DGRAM; SetTimeout i;
              Log INFO (ForwardTo ip (default_port port));
              SendTo i data (ip, default_port port)] in
  let next e :=
    if is_OSError e
    then (pre ++ [Log DEBUG (Err e)]
              ++ fst (UDP_forward_from w data (S i) rest),
          snd (UDP_forward_from w data (S i) rest))
    else (pre, Raise e) in
  let next_recv e :=
    if is_OSError e
    then (pre ++ [Recv i 8192; Log DEBUG (Err e)]
              ++ fst (UDP_forward_from w data (S i) rest),
          snd (UDP_forward_from w data (S i) rest))
    else (pre ++ [Recv i 8192], Raise e) in
  match on_send (upstream w i) with
  | Some e => next e
  | None =>
      match on_recv (upstream w i) with
      | Raise e => next_recv e
      | Return reply =>
          let recv := recv_upto 8192 reply in
          (pre ++ [Recv i 8192; Log DEBUG (Data recv)]
               ++ fst (request_write w recv),
           snd (request_write w recv))
      end
  end.
Proof.
  cbn [UDP_forward_from].
  unfold try_except_else, sock_sendto, sock_recv, log, bind,
    emit, failing, lift, pure, raise.
  cbn [fst snd app].
  destruct (on_send (upstream w i)) as [e|]; cbn [fst snd app].
  - destruct (is_OSError e); reflexivity.
  - destruct (on_recv (upstream w i)) as [reply|e]; cbn [fst snd app];
      [reflexivity|].
    destruct (is_OSError e); reflexivity.
Qed.

Lemma request_sends_app (t1 t2 : list event) :
  request_sends (t1 ++ t2) = request_sends t1 ++ request_sends t2.
Proof.
  induction t1 as [|[] t1 IH]; cbn [app request_sends]; rewrite ?IH; reflexivity.
Qed.

Lemma replies_app (t1 t2 : list event) :
  replies (t1 ++ t2) = replies t1 ++ replies t2.
Proof.
  induction t1 as [|[| | | | | | | | | |b []] t1 IH];
    cbn [app replies]; rewrite ?IH; reflexivity.
Qed.

Lemma contacted_app (t1 t2 : list event) :
  contacted (t1 ++ t2) = contacted t1 ++ contacted t2.
Proof.
  induction t1 as [|[] t1 IH]; cbn [app contacted]; rewrite ?IH; reflexivity.
Qed.

Lemma sockets_app (t1 t2 : list event) :
  sockets (t1 ++ t2) = sockets t1 ++ sockets t2.
Proof.
  induction t1 as [|[] t1 IH]; cbn [app sockets]; rewrite ?IH; reflexivity.
Qed.

Lemma contacted_write (w : world) (b : bytes) :
  contacted (fst (request_write w b)) = [].
Proof. unfold request_write. now destruct (request_send w b). Qed.

Lemma sockets_write (w : world) (b : bytes) :
  sockets (fst (request_write w b)) = [].
Proof. unfold request_write. now destruct (request_send w b). Qed.

Lemma replies_write_Raise (w : world) (b : bytes) (e : exn) :
  snd (request_write w b) = Raise e -> replies (fst (request_write w b)) = [].
Proof.
  unfold request_write. destruct (request_send w b); [reflexivity|discriminate].
Qed.

Lemma forward_run_last (reply : nat -> option bytes) (fails : nat -> Prop)
    (i : nat) (root : string * option Z) (rest : list (string * option Z))
    (t : list event) :
  contacted t = [target_addr root] ->
  sockets t = [i] ->
  request_sends t = match reply i with Some r => [r] | None => [] end ->
  ~ fails i ->
  forward_run reply fails i (root :: rest) t 1.
Proof.
  intros Hc Hs Hr Hnf. unfold forward_run.
  rewrite Nat.add_0_r.
  repeat split; cbn [List.length map firstn seq]; try assumption; try lia.
  intros n r _ _ Hfails. destruct n as [|n]; [reflexivity|].
  exfalso. apply Hnf. rewrite <- (Nat.add_0_r i). apply Hfails. lia.
Qed.

Lemma forward_run_next (reply : nat -> option bytes) (fails : nat -> Prop)
    (i : nat) (root : string * option Z) (rest : list (string * option Z))
    (t t' : list event) (k : nat) :
  contacted t = target_addr root :: contacted t' ->
  sockets t = i :: sockets t' ->
  request_sends t = request_sends t' ->
  reply i = None ->
  forward_run reply fails (S i) rest t' k ->
  forward_run reply fails i (root :: rest) t (S k).
Proof.
  intros Hc Hs Hr Hnone (Hle & Hc' & Hs' & Hprev & Hsend & Hfirst).
  unfold forward_run. repeat split.
  - cbn [List.length]. lia.
  - rewrite Hc, Hc'. reflexivity.
  - rewrite Hs, Hs'. reflexivity.
  - intros [|j] Hj.
    + now rewrite Nat.add_0_r.
    + rewrite Nat.add_succ_r. apply (Hprev j). lia.
  - rewrite Hr, Hsend. destruct k as [|j].
    + now rewrite Nat.add_0_r, Hnone.
    + now rewrite Nat.add_succ_r.
  - intros [|n] r Hn Hrep Hfails.
    + rewrite Nat.add_0_r, Hnone in Hrep. discriminate.
    + f_equal. apply (Hfirst n r).
      * cbn [List.length] in Hn. lia.
      * now rewrite Nat.add_succ_r in Hrep.
      * intros j Hj. specialize (Hfails (S j) ltac:(lia)).
        now rewrite Nat.add_succ_r in Hfails.
Qed.

Ltac trace_simpl :=
  rewrite ?contacted_app, ?sockets_app, ?request_sends_app;
  cbn [contacted sockets request_sends app fst snd];
  rewrite ?contacted_write, ?sockets_write, ?request_sends_write.

Lemma TCP_forward_from_run (w : world) (data : bytes) :
  forall rest i,
    exists k,
      forward_run (TCP_reply w data) (TCP_connect_fails w) i rest
                  (fst (TCP_forward_from w data i rest)) k.
Proof.
  induction rest as [|[ip port] rest IH]; intros i.
  - exists 0%nat. unfold forward_run. cbn.
    repeat split; intros; lia.
  - rewrite TCP_forward_step. cbv zeta.
    destruct (on_connect (upstream w i)) as [e|] eqn:Ec.
    { destruct (is_OSError e) eqn:Eos.
      - destruct (IH (S i)) as [k Hk]. exists (S k).
        apply forward_run_next with (t' := fst (TCP_forward_from w data (S i) rest));
          try (trace_simpl; reflexivity); [|exact Hk].
        unfold TCP_reply. now rewrite Ec.
      - exists 1%nat. apply forward_run_last; try (trace_simpl; reflexivity).
        + unfold TCP_reply. rewrite Ec. trace_simpl. reflexivity.
        + intros [msg Hm]. rewrite Ec in Hm. injection Hm as ->. discriminate. }
    assert (Hnf : ~ TCP_connect_fails w i)
      by (intros [msg Hm]; rewrite Ec in Hm; discriminate).
    exists 1%nat.
    destruct (struct_pack_H (len data)) as [sz|e] eqn:Ep;
      [destruct (on_send (upstream w i)) as [e|] eqn:Es;
       [|destruct (on_recv (upstream w i)) as [reply|e] eqn:Er]|];
      (apply forward_run_last; try (trace_simpl; reflexivity); [|exact Hnf]);
      unfold TCP_reply; rewrite Ec, Ep, ?Es, ?Er; trace_simpl; reflexivity.
Qed.

Lemma UDP_forward_from_run (w : world) (data : bytes) :
  forall rest i,
    exists k,
      forward_run (UDP_reply w) (UDP_exchange_fails w) i rest
                  (fst (UDP_forward_from w data i rest)) k.
Proof.
  induction rest as [|[ip port] rest IH]; intros i.
  - exists 0%nat. unfold forward_run. cbn.
    repeat split; intros; lia.
  - rewrite UDP_forward_step. cbv zeta.
    destruct (on_send (upstream w i)) as [e|] eqn:Es.
    { destruct (is_OSError e) eqn:Eos.
      - destruct (IH (S i)) as [k Hk]. exists (S k).
        apply forward_run_next with (t' := fst (UDP_forward_from w data (S i) rest));
          try (trace_simpl; reflexivity); [|exact Hk].
        unfold UDP_reply. now rewrite Es.
      - exists 1%nat. apply forward_run_last; try (trace_simpl; reflexivity).
        + unfold UDP_reply. rewrite Es. trace_simpl. reflexivity.
        + intros [[msg Hm]|[Hm _]]; rewrite Es in Hm; [|discriminate].
          injection Hm as ->. discriminate. }
    destruct (on_recv (upstream w i)) as [reply|e] eqn:Er.
    { exists 1%nat. apply forward_run_last; try (trace_simpl; reflexivity).
      - unfold UDP_reply. rewrite Es, Er. trace_simpl. reflexivity.
      - intros [[msg Hm]|[_ [msg Hm]]]; rewrite ?Es, ?Er in Hm; discriminate. }
    destruct (is_OSError e) eqn:Eos.
    + destruct (IH (S i)) as [k Hk]. exists (S k).
      apply forward_run_next with (t' := fst (UDP_forward_from w data (S i) rest));
        try (trace_simpl; reflexivity); [|exact Hk].
      unfold UDP_reply. now rewrite Es, Er.
    + exists 1%nat. apply forward_run_last; try (trace_simpl; reflexivity).
      * unfold UDP_reply. rewrite Es, Er. trace_simpl. reflexivity.
      * intros [[msg Hm]|[_ [msg Hm]]]; rewrite ?Es, ?Er in Hm;
          [discriminate|]. injection Hm as ->. discriminate.
Qed.

(** C5: for either transport, the forwarder tries the roots in declared
    order, each on a socket of its own, and stops at the first one that
    yields a reply: every root before the last one tried yielded none, no
    root after a replying one is tried, and the only thing written to the
    requester is the reply of the last root tried, if it yielded one.  When
    no root yields a reply nothing is written to the requester.  When the
    roots before the first replying one fail in the way the loop recovers
    from, that root is reached and its reply is relayed. *)
Theorem C5_forwarder_first_reply (tcp : bool) (w : world) (data : bytes) :
  let forward := if tcp then TCP_forward_roots else UDP_forward_roots in
  let reply := if tcp then TCP_reply w data else UDP_reply w in
  let fails := if tcp then TCP_connect_fails w else UDP_exchange_fails w in
  let targets := map target_addr (roots (config w)) in
  let t := fst (forward w data) in
  (exists k,
      (k <= List.length targets)%nat /\
      contacted t = firstn k targets /\
      sockets t = seq 0 k /\
      (forall j, (S j < k)%nat -> reply j = None) /\
      request_sends t =
        match k with
        | O => []
        | S j => match reply j with Some r => [r] | None => [] end
        end) /\
  (forall i r, reply i = Some r -> (List.length (contacted t) <= S i)%nat) /\
  ((forall i, (i < List.length targets)%nat -> reply i = None) ->
   request_sends t = []) /\
  (forall i r,
      (i < List.length targets)%nat -> reply i = Some r ->
      (forall j, (j < i)%nat -> fails j) ->
      contacted t = firstn (S i) targets /\ request_sends t = [r]).
Proof.
  intros forward reply fails targets t.
  assert (Hrun : exists k, forward_run reply fails 0 (roots (config w)) t k).
  { subst forward reply fails t. destruct tcp.
    - apply TCP_forward_from_run.
    - apply UDP_forward_from_run. }
  destruct Hrun as (k & Hle & Hc & Hs & Hprev & Hsend & Hfirst).
  cbn [Nat.add] in Hprev, Hsend, Hfirst.
  assert (Hlen : List.length targets = List.length (roots (config w)))
    by (unfold targets; apply length_map).
  fold targets in Hc.
  split; [|split; [|split]].
  - exists k. rewrite Hlen. repeat split; assumption.
  - intros i r Hr. rewrite Hc, length_firstn.
    destruct (Nat.le_gt_cases k (S i)) as [Hk|Hk]; [lia|].
    rewrite (Hprev i Hk) in Hr. discriminate.
  - intros Hnone. rewrite Hsend. destruct k as [|j]; [reflexivity|].
    rewrite (Hnone j); [reflexivity | lia].
  - intros i r Hi Hr Hfails.
    assert (Hk : k = S i) by (apply (Hfirst i r); [lia | exact Hr | exact Hfails]).
    subst k. rewrite Hc, Hsend, Hr. split; reflexivity.
Qed.

Lemma C5_forwarder_first_reply_witness :
  contacted (fst (TCP_forward_roots failover_world [x01])) =
    [("192.0.2.1", 53); ("192.0.2.2", 5353)] /\
  request_sends (fst (TCP_forward_roots failover_world [x01])) = [[x52]].
Proof.
  apply (C5_forwarder_first_reply true failover_world [x01]) with (i := 1%nat).
  - vm_compute. lia.
  - reflexivity.
  - intros j Hj. assert (j = 0%nat) as -> by lia.
    exists "Connection refused". reflexivity.
Defined.

(** C4 on a TCP receive timeout: with two roots, the first of which accepts
    the connection and the query and then lets [recv] time out, the TCP
    forwarder raises the timeout out of its loop, without logging it and
    without trying the second root.  The UDP forwarder, in the same world,
    logs the timeout, goes on to the second root and relays its reply. *)
Theorem C4_tcp_recv_timeout_leaves_the_loop :
  TCP_forward_roots recv_timeout_world [x01] =
    ([Socket 0 SOCK_STREAM; SetTimeout 0;
      Log INFO (ForwardTo "192.0.2.1" 53); Connect 0 ("192.0.2.1", 53);
      SendAll 0 [x00; x01; x01]; Recv 0 8192],
     Raise (OSError "timed out")) /\
  contacted (fst (TCP_forward_roots recv_timeout_world [x01])) =
    [("192.0.2.1", 53)] /\
  reported (fst (TCP_forward_roots recv_timeout_world [x01])) = [] /\
  snd (UDP_forward_roots recv_timeout_world [x01]) = Return tt /\
  contacted (fst (UDP_forward_roots recv_timeout_world [x01])) =
    [("192.0.2.1", 53); ("192.0.2.2", 5353)] /\
  reported (fst (UDP_forward_roots recv_timeout_world [x01])) =
    [OSError "timed out"] /\
  request_sends (fst (UDP_forward_roots recv_timeout_world [x01])) = [[x52]].
Proof.
  repeat split; reflexivity.
Qed.

(** C10: with no root configured, either forwarder performs no I/O at all
    (no socket is opened, nothing is written to the requester) and returns
    normally. *)
Theorem C10_no_roots (w : world) (data : bytes) :
  roots (config w) = [] ->
  TCP_forward_roots w data = ([], Return tt) /\
  UDP_forward_roots w data = ([], Return tt).
Proof.
  intros H. unfold TCP_forward_roots, UDP_forward_roots. rewrite H.
  split; reflexivity.
Qed.

Lemma C10_no_roots_witness :
  TCP_forward_roots quiet_world [x01] = ([], Return tt) /\
  UDP_forward_roots quiet_world [x01] = ([], Return tt).
Proof.
  apply (C10_no_roots quiet_world [x01]). reflexivity.
Defined.

(** ** Dispatcher *)

Lemma handle_caught (h : handler) (w : world) (denylist : list string) :
  snd (get_denied_types w (fst (client_address w))) = Return denylist ->
  handle h w =
  (Log INFO (RequestLine (name3 h) (fst (client_address w))
                         (snd (client_address w)))
     :: fst (get_denied_types w (fst (client_address w)))
     ++ Log DEBUG (Denied denylist)
     :: fst (handle_try h w denylist)
     ++ match snd (handle_try h w denylist) with
        | Raise e => [PrintExc e]
        | Return _ => []
        end,
   Return tt).
Proof.
  intros Hd. unfold handle, log.
  rewrite bind_emit, (fst_bind_Return _ _ _ Hd), bind_emit.
  unfold try_except_Exception, try_except_else. cbn [fst snd].
  destruct (snd (handle_try h w denylist)) as [[]|e]; reflexivity.
Qed.

Lemma handle_filter_fault (h : handler) (w : world) (e : exn) :
  snd (get_denied_types w (fst (client_address w))) = Raise e ->
  handle h w =
  (Log INFO (RequestLine (name3 h) (fst (client_address w))
                         (snd (client_address w)))
     :: fst (get_denied_types w (fst (client_address w))),
   Raise e).
Proof.
  intros Hd. unfold handle, log.
  rewrite bind_emit, (bind_Raise _ _ _ Hd). reflexivity.
Qed.

Lemma handle_try_routes (h : handler) (w : world) (denylist : list string)
    (data : bytes) (retcode : Z) (retdata : option bytes) :
  snd (get_data h w) = Return data ->
  dns_response w data (db_path (config w)) (lower (name3 h)) denylist =
    Return (retcode, retdata) ->
  handle_try h w denylist =
  (fst (get_data h w) ++ Log DEBUG (Code retcode)
     :: fst (route h w data retcode retdata),
   snd (route h w data retcode retdata)).
Proof.
  intros Hg Hl. unfold handle_try, route, log.
  rewrite (fst_bind_Return _ _ _ Hg), Hl, bind_lift_Return. cbn [fst snd].
  rewrite bind_emit.
  destruct (retcode =? 0); [destruct retdata|destruct (retcode =? 1);
    [|destruct (retcode =? 2)]]; rewrite ?bind_emit; reflexivity.
Qed.

Lemma silent_bind {A B} (m : M A) (f : A -> M B) :
  mute m -> (forall a, silent_failure (f a)) -> silent_failure (bind m f).
Proof.
  unfold mute, silent_failure, bind. intros Hm Hf e.
  destruct (snd m) as [a|e']; cbn [fst snd].
  - intros He. rewrite replies_app, Hm. apply (Hf a e He).
  - intros _. exact Hm.
Qed.

Lemma silent_write (w : world) (b : bytes) : silent_failure (request_write w b).
Proof. intros e. apply replies_write_Raise. Qed.

Lemma mute_TCP_get_data (w : world) : mute (TCP_get_data w).
Proof.
  unfold mute, TCP_get_data, request_recv, bind, emit, lift, pure.
  cbn [fst snd]. destruct (request_stream w); reflexivity.
Qed.

Lemma silent_TCP_send_data (w : world) (data : bytes) :
  silent_failure (TCP_send_data w data).
Proof.
  unfold TCP_send_data. apply silent_bind; [reflexivity|].
  intros framed. apply silent_write.
Qed.

Lemma silent_TCP_forward_from (w : world) (data : bytes) :
  forall rest i, silent_failure (TCP_forward_from w data i rest).
Proof.
  induction rest as [|[ip port] rest IH]; intros i e.
  - discriminate.
  - rewrite TCP_forward_step. cbv zeta.
    destruct (on_connect (upstream w i)) as [e'|].
    { destruct (is_OSError e'); [|reflexivity].
      cbn [fst snd]. intros He. rewrite !replies_app. cbn [replies app].
      apply (IH (S i) e He). }
    destruct (struct_pack_H (len data)) as [sz|e']; [|reflexivity].
    destruct (on_send (upstream w i)) as [e'|]; [reflexivity|].
    destruct (on_recv (upstream w i)) as [reply|e']; [|reflexivity].
    cbn [fst snd]. intros He. rewrite !replies_app. cbn [replies app].
    apply (silent_write _ _ e He).
Qed.

Lemma silent_UDP_forward_from (w : world) (data : bytes) :
  forall rest i, silent_failure (UDP_forward_from w data i rest).
Proof.
  induction rest as [|[ip port] rest IH]; intros i e.
  - discriminate.
  - rewrite UDP_forward_step. cbv zeta.
    destruct (on_send (upstream w i)) as [e'|].
    { destruct (is_OSError e'); [|reflexivity].
      cbn [fst snd]. intros He. rewrite !replies_app. cbn [replies app].
      apply (IH (S i) e He). }
    destruct (on_recv (upstream w i)) as [reply|e'].
    + cbn [fst snd]. intros He. rewrite !replies_app. cbn [replies app].
      apply (silent_write _ _ e He).
    + destruct (is_OSError e'); [|reflexivity].
      cbn [fst snd]. intros He. rewrite !replies_app. cbn [replies app].
      apply (IH (S i) e He).
Qed.

Lemma replies_denied_from (search_ip : string) :
  forall rest ret, mute (denied_from search_ip rest ret).
Proof.
  unfold mute.
  induction rest as [|entry rest IH]; intros ret; [reflexivity|].
  cbn [denied_from].
  destruct entry as [|ip [|type [|x entry]]]; try reflexivity.
  unfold log. rewrite bind_emit. cbn [fst replies]. apply IH.
Qed.

(** In both handler classes a fault of the [try] body leaves nothing
    delivered to the requester. *)
Lemma silent_handle_try (h : handler) (w : world) (denylist : list string) :
  h = TCPRequestHandler \/ h = UDPRequestHandler ->
  silent_failure (handle_try h w denylist).
Proof.
  intros Hh. unfold handle_try.
  apply silent_bind.
  { destruct Hh as [-> | ->]; [apply mute_TCP_get_data | reflexivity]. }
  intros data. apply silent_bind; [reflexivity|].
  intros [retcode retdata]. cbn [fst snd].
  apply silent_bind; [reflexivity|]. intros _.
  destruct (retcode =? 0).
  { destruct retdata as [d|]; [|discriminate].
    apply silent_bind; [reflexivity|]. intros _.
    destruct Hh as [-> | ->]; cbn [send_data].
    - apply silent_TCP_send_data.
    - apply silent_write. }
  destruct (retcode =? 1).
  { apply silent_bind; [reflexivity|]. intros _.
    destruct Hh as [-> | ->]; cbn [forward_roots].
    - apply silent_TCP_forward_from.
    - apply silent_UDP_forward_from. }
  destruct (retcode =? 2); discriminate.
Qed.

Lemma reported_app (t1 t2 : list event) :
  reported (t1 ++ t2) = reported t1 ++ reported t2.
Proof.
  induction t1 as [|[lvl []| | | | | | | | | |] t1 IH];
    cbn [app reported]; rewrite ?IH; reflexivity.
Qed.

Lemma no_traffic_app (t1 t2 : list event) :
  no_traffic t1 -> no_traffic t2 -> no_traffic (t1 ++ t2).
Proof.
  unfold no_traffic. intros (H1 & H2 & H3) (H4 & H5 & H6).
  rewrite request_sends_app, sockets_app, contacted_app.
  rewrite H1, H2, H3, H4, H5, H6. repeat split.
Qed.

Lemma no_traffic_denied_from (search_ip : string) :
  forall rest ret,
    no_traffic (fst (denied_from search_ip rest ret)) /\
    reported (fst (denied_from search_ip rest ret)) = [].
Proof.
  induction rest as [|entry rest IH]; intros ret;
    [unfold no_traffic; repeat split|].
  cbn [denied_from].
  destruct entry as [|ip [|type [|x entry]]];
    try solve [unfold no_traffic; repeat split].
  unfold log. rewrite bind_emit. cbn [fst]. apply IH.
Qed.

Lemma no_traffic_get_data (h : handler) (w : world) :
  h = TCPRequestHandler \/ h = UDPRequestHandler ->
  no_traffic (fst (get_data h w)) /\ reported (fst (get_data h w)) = [].
Proof.
  intros [-> | ->]; cbn [get_data TCPRequestHandler UDPRequestHandler].
  - unfold TCP_get_data, request_recv, bind, emit, lift, pure, no_traffic.
    destruct (request_stream w); cbn; repeat split.
  - unfold no_traffic. repeat split.
Qed.

(** The events of [handle] before the routing, when filter, framing and
    lookup went through. *)
Lemma handle_routes (h : handler) (w : world) (denylist : list string)
    (data : bytes) (retcode : Z) (retdata : option bytes) :
  snd (get_denied_types w (fst (client_address w))) = Return denylist ->
  snd (get_data h w) = Return data ->
  dns_response w data (db_path (config w)) (lower (name3 h)) denylist =
    Return (retcode, retdata) ->
  handle h w =
  ((Log INFO (RequestLine (name3 h) (fst (client_address w))
                          (snd (client_address w)))
      :: fst (get_denied_types w (fst (client_address w)))
      ++ Log DEBUG (Denied denylist)
      :: fst (get_data h w) ++ [Log DEBUG (Code retcode)])
     ++ fst (route h w data retcode retdata)
     ++ match snd (route h w data retcode retdata) with
        | Raise e => [PrintExc e]
        | Return _ => []
        end,
   Return tt).
Proof.
  intros Hd Hg Hl.
  rewrite (handle_caught _ _ _ Hd), (handle_try_routes _ _ _ _ _ _ Hg Hl).
  cbn [fst snd]. f_equal.
  repeat (cbn [app]; rewrite <- app_assoc). cbn [app]. reflexivity.
Qed.

Lemma no_traffic_head (h : handler) (w : world) (denylist : list string)
    (retcode : Z) :
  h = TCPRequestHandler \/ h = UDPRequestHandler ->
  let head :=
    Log INFO (RequestLine (name3 h) (fst (client_address w))
                          (snd (client_address w)))
      :: fst (get_denied_types w (fst (client_address w)))
      ++ Log DEBUG (Denied denylist)
      :: fst (get_data h w) ++ [Log DEBUG (Code retcode)] in
  no_traffic head /\ reported head = [].
Proof.
  intros Hh head.
  destruct (no_traffic_denied_from (fst (client_address w))
              (client_denylist (config w)) []) as [Hd Hdr].
  destruct (no_traffic_get_data h w Hh) as [Hg Hgr].
  fold (get_denied_types w (fst (client_address w))) in Hd, Hdr.
  split.
  - apply (no_traffic_app [_]); [repeat split|].
    apply no_traffic_app; [exact Hd|].
    apply (no_traffic_app [_]); [repeat split|].
    apply no_traffic_app; [exact Hg|repeat split].
  - unfold head. cbn [reported].
    rewrite reported_app, Hdr. cbn [app reported].
    rewrite reported_app, Hgr. reflexivity.
Qed.

Lemma no_traffic_tail (r : result unit) :
  no_traffic match r with Raise e => [PrintExc e] | Return _ => [] end.
Proof. destruct r; repeat split. Qed.

Lemma send_data_sends (h : handler) (w : world) (answer framed : bytes) :
  (h = TCPRequestHandler -> tcp_encode answer = Return framed) ->
  (h = UDPRequestHandler -> framed = answer) ->
  h = TCPRequestHandler \/ h = UDPRequestHandler ->
  request_sends (fst (send_data h w answer)) = [framed] /\
  sockets (fst (send_data h w answer)) = [] /\
  contacted (fst (send_data h w answer)) = [].
Proof.
  intros Ht Hu [-> | ->]; cbn [send_data TCPRequestHandler UDPRequestHandler].
  - rewrite (TCP_send_data_writes _ _ _ (Ht eq_refl)).
    now rewrite request_sends_write, sockets_write, contacted_write.
  - rewrite (Hu eq_refl). unfold UDP_send_data.
    now rewrite request_sends_write, sockets_write, contacted_write.
Qed.

(** C1: once the query is framed and the lookup has returned, [handle]
    routes on the status code alone.  With status 0 and response bytes it
    writes those bytes to the requester exactly once, framed for the
    transport (length-prefixed on TCP, bare on UDP), and opens no forwarding
    socket.  With status 1 its run is one run of [forward_roots] on the
    query that [get_data] returned, between events that carry no traffic.
    With status 2 it writes nothing and forwards nothing. *)
Theorem C1_dispatch_routes_on_status (h : handler) (w : world)
    (denylist : list string) (data : bytes) (retcode : Z)
    (retdata : option bytes) :
  h = TCPRequestHandler \/ h = UDPRequestHandler ->
  snd (get_denied_types w (fst (client_address w))) = Return denylist ->
  snd (get_data h w) = Return data ->
  dns_response w data (db_path (config w)) (lower (name3 h)) denylist =
    Return (retcode, retdata) ->
  let t := fst (handle h w) in
  (retcode = 0 ->
   forall answer framed,
     retdata = Some answer -> answer <> [] ->
     (h = TCPRequestHandler -> tcp_encode answer = Return framed) ->
     (h = UDPRequestHandler -> framed = answer) ->
     request_sends t = [framed] /\ sockets t = [] /\ contacted t = []) /\
  (retcode = 1 ->
   (exists head tail,
       t = head ++ fst (forward_roots h w data) ++ tail /\
       no_traffic head /\ no_traffic tail) /\
   request_sends t = request_sends (fst (forward_roots h w data)) /\
   sockets t = sockets (fst (forward_roots h w data)) /\
   contacted t = contacted (fst (forward_roots h w data))) /\
  (retcode = 2 -> no_traffic t).
Proof.
  intros Hh Hd Hg Hl t. subst t.
  rewrite (handle_routes _ _ _ _ _ _ Hd Hg Hl). cbn [fst].
  destruct (no_traffic_head h w denylist retcode Hh) as [(Hr & Hs & Hc) _].
  cbv zeta in Hr, Hs, Hc.
  pose proof (no_traffic_tail (snd (route h w data retcode retdata)))
    as (Hr' & Hs' & Hc').
  split; [|split].
  - intros -> answer framed -> _ Ht Hu.
    destruct (send_data_sends h w answer framed Ht Hu Hh) as (Sr & Ss & Sc).
    rewrite !request_sends_app, !sockets_app, !contacted_app.
    rewrite Hr, Hs, Hc, Hr', Hs', Hc'.
    unfold route. cbn [Z.eqb fst request_sends sockets contacted app].
    rewrite Sr, Ss, Sc. repeat split.
  - intros ->. split.
    + exists ((Log INFO (RequestLine (name3 h) (fst (client_address w))
                                    (snd (client_address w)))
                :: fst (get_denied_types w (fst (client_address w)))
                ++ Log DEBUG (Denied denylist)
                :: fst (get_data h w) ++ [Log DEBUG (Code 1)])
               ++ [Log INFO (Text "Need forwarding")]).
      exists (match snd (forward_roots h w data) with
              | Raise e => [PrintExc e]
              | Return _ => []
              end).
      split; [|split].
      * unfold route. cbn [Z.eqb Pos.eqb fst snd].
        rewrite <- !app_assoc. cbn [app]. reflexivity.
      * apply no_traffic_app; [|unfold no_traffic; repeat split].
        apply (no_traffic_head h w denylist 1 Hh).
      * apply no_traffic_tail.
    + rewrite !request_sends_app, !sockets_app, !contacted_app.
      rewrite Hr, Hs, Hc, Hr', Hs', Hc'.
      unfold route.
      cbn [Z.eqb Pos.eqb fst request_sends sockets contacted app].
      rewrite !app_nil_r. repeat split.
  - intros ->. unfold route. cbn [Z.eqb Pos.eqb fst snd].
    apply no_traffic_app; [|unfold no_traffic; repeat split].
    apply (no_traffic_head h w denylist 2 Hh).
Qed.

Lemma C1_dispatch_routes_on_status_witness :
  let w := answering_world (0, Some [x41; x4e; x53]) in
  request_sends (fst (handle TCPRequestHandler w)) =
    [[x00; x03; x41; x4e; x53]] /\
  sockets (fst (handle TCPRequestHandler w)) = [] /\
  contacted (fst (handle TCPRequestHandler w)) = [].
Proof.
  intros w.
  apply (proj1 (C1_dispatch_routes_on_status TCPRequestHandler w [] [x61] 0
                  (Some [x41; x4e; x53]) (or_introl eq_refl)
                  eq_refl eq_refl eq_refl)
               eq_refl [x41; x4e; x53] [x00; x03; x41; x4e; x53] eq_refl).
  - discriminate.
  - reflexivity.
  - discriminate.
Defined.

(** C6, as stated, fails for empty bytes: [handle] tests [retdata is not
    None], so an empty answer is handed to [send_data].  The TCP handler
    writes the bare length prefix 00 00, the UDP handler an empty datagram. *)
Lemma C6_empty_answer_is_sent :
  let w := answering_world (0, Some []) in
  request_sends (fst (handle TCPRequestHandler w)) = [[x00; x00]] /\
  replies (fst (handle TCPRequestHandler w)) = [[x00; x00]] /\
  request_sends (fst (handle UDPRequestHandler w)) = [[]] /\
  replies (fst (handle UDPRequestHandler w)) = [[]].
Proof.
  repeat split; reflexivity.
Qed.

(** C6, amended: when the lookup returns status 0 with absent ([None])
    response bytes, [handle] is a no-op: nothing is written to the
    requester, nothing is forwarded, no error is raised or reported.  With
    empty bytes the answer is sent like any other: the TCP handler writes
    the 2-byte prefix 00 00, the UDP handler an empty datagram. *)
Theorem C6_absent_answer_is_a_noop (h : handler) (w : world)
    (denylist : list string) (data : bytes) (retdata : option bytes) :
  h = TCPRequestHandler \/ h = UDPRequestHandler ->
  snd (get_denied_types w (fst (client_address w))) = Return denylist ->
  snd (get_data h w) = Return data ->
  dns_response w data (db_path (config w)) (lower (name3 h)) denylist =
    Return (0, retdata) ->
  let t := fst (handle h w) in
  snd (handle h w) = Return tt /\
  (retdata = None -> no_traffic t /\ reported t = []) /\
  (retdata = Some [] ->
   (h = TCPRequestHandler -> request_sends t = [[x00; x00]]) /\
   (h = UDPRequestHandler -> request_sends t = [[]])).
Proof.
  intros Hh Hd Hg Hl t. subst t.
  rewrite (handle_routes _ _ _ _ _ _ Hd Hg Hl). cbn [fst snd].
  destruct (no_traffic_head h w denylist 0 Hh) as [Hn Hrep].
  cbv zeta in Hn, Hrep.
  split; [reflexivity|]. split.
  - intros ->. unfold route. cbn [Z.eqb fst snd app].
    rewrite app_nil_r. split; assumption.
  - intros ->.
    destruct Hn as (Hr & Hs & Hc).
    pose proof (no_traffic_tail (snd (route h w data 0 (Some []))))
      as (Hr' & _).
    rewrite !request_sends_app, Hr, Hr'.
    unfold route. cbn [Z.eqb fst request_sends app]. rewrite app_nil_r.
    split; intros ->; cbn [send_data TCPRequestHandler UDPRequestHandler].
    + rewrite (TCP_send_data_writes _ [] [x00; x00] eq_refl).
      apply request_sends_write.
    + apply request_sends_write.
Qed.

Lemma C6_absent_answer_is_a_noop_witness :
  let w := answering_world (0, None) in
  snd (handle UDPRequestHandler w) = Return tt /\
  no_traffic (fst (handle UDPRequestHandler w)) /\
  reported (fst (handle UDPRequestHandler w)) = [].
Proof.
  intros w.
  destruct (C6_absent_answer_is_a_noop UDPRequestHandler w [] [x61] None
              (or_intror eq_refl) eq_refl eq_refl eq_refl) as (H1 & H2 & _).
  split; [exact H1 | exact (H2 eq_refl)].
Defined.

(** C8, as stated, fails: the access filter runs before the [try], so the
    [ValueError] it raises on a denylist entry that is not a pair leaves
    [handle]. *)
Lemma C8_filter_fault_escapes :
  handle TCPRequestHandler malformed_denylist_world =
    ([Log INFO (RequestLine "TCP" "10.0.0.7" 40000)],
     Raise (ValueError "not enough values to unpack (expected 2)")) /\
  ~ (forall w, snd (handle TCPRequestHandler w) = Return tt).
Proof.
  split; [reflexivity|].
  intros H. specialize (H malformed_denylist_world). discriminate H.
Qed.

(** C8, amended: every fault raised inside the [try] of [handle] (while
    framing, in the local lookup, while sending, while forwarding) is
    caught there: the run ends on the printing of that fault, nothing has
    been delivered to the requester (for the TCP and UDP handlers), and
    [handle] returns normally.  A fault of the access filter, which runs
    before the [try], leaves [handle]. *)
Theorem C8_faults_inside_try_are_caught (h : handler) (w : world) :
  let ip := fst (client_address w) in
  (forall denylist,
      snd (get_denied_types w ip) = Return denylist ->
      snd (handle h w) = Return tt /\
      forall e,
        snd (handle_try h w denylist) = Raise e ->
        fst (handle h w) =
          (Log INFO (RequestLine (name3 h) ip (snd (client_address w)))
             :: fst (get_denied_types w ip)
             ++ Log DEBUG (Denied denylist)
             :: fst (handle_try h w denylist)) ++ [PrintExc e] /\
        In e (reported (fst (handle h w))) /\
        (h = TCPRequestHandler \/ h = UDPRequestHandler ->
         replies (fst (handle h w)) = [])) /\
  (forall e,
      snd (get_denied_types w ip) = Raise e -> snd (handle h w) = Raise e).
Proof.
  intros ip. split.
  - intros denylist Hd. rewrite (handle_caught _ _ _ Hd). cbn [fst snd].
    split; [reflexivity|]. intros e He. rewrite He.
    fold ip.
    assert (Heq :
      Log INFO (RequestLine (name3 h) ip (snd (client_address w)))
        :: fst (get_denied_types w ip)
        ++ Log DEBUG (Denied denylist)
        :: fst (handle_try h w denylist) ++ [PrintExc e] =
      (Log INFO (RequestLine (name3 h) ip (snd (client_address w)))
         :: fst (get_denied_types w ip)
         ++ Log DEBUG (Denied denylist)
         :: fst (handle_try h w denylist)) ++ [PrintExc e]).
    { cbn [app]. rewrite <- app_assoc. reflexivity. }
    rewrite Heq. split; [reflexivity|]. split.
    + rewrite reported_app. apply in_or_app. right. now left.
    + intros Hh. rewrite replies_app. cbn [app replies].
      rewrite replies_app. cbn [replies].
      rewrite (replies_denied_from ip (client_denylist (config w)) []).
      rewrite (silent_handle_try h w denylist Hh e He). reflexivity.
  - intros e Hd. now rewrite (handle_filter_fault _ _ _ Hd).
Qed.

Lemma C8_faults_inside_try_are_caught_witness :
  snd (handle TCPRequestHandler quiet_world) = Return tt /\
  In (StructError "unpack requires a buffer of 2 bytes")
     (reported (fst (handle TCPRequestHandler quiet_world))) /\
  replies (fst (handle TCPRequestHandler quiet_world)) = [].
Proof.
  destruct (proj1 (C8_faults_inside_try_are_caught TCPRequestHandler
                     quiet_world) [] eq_refl) as [H1 H2].
  destruct (H2 (StructError "unpack requires a buffer of 2 bytes") eq_refl)
    as (_ & H3 & H4).
  split; [exact H1|]. split; [exact H3 | exact (H4 (or_introl eq_refl))].
Defined.

(** * Further properties of the framing *)

Lemma byte_of_to_Z (b : byte) : byte_of_Z (byte_to_Z b) = b.
Proof.
  unfold byte_of_Z, byte_to_Z. now rewrite N2Z.id, Byte.of_to_N.
Qed.

Lemma lstrip_suffix (data : bytes) :
  exists spaces, data = spaces ++ lstrip data.
Proof.
  induction data as [|b rest [spaces IH]]; [now exists []|].
  cbn [lstrip]. destruct (is_space b).
  - exists (b :: spaces). cbn [app]. now rewrite <- IH.
  - now exists [].
Qed.

Lemma lstrip_hd (data : bytes) :
  lstrip data = [] \/ is_space (hd x00 (lstrip data)) = false.
Proof.
  induction data as [|b rest IH]; [now left|].
  cbn [lstrip]. destruct (is_space b) eqn:E; [exact IH|]. now right.
Qed.

Lemma length_lstrip (data : bytes) :
  (List.length (lstrip data) <= List.length data)%nat.
Proof.
  destruct (lstrip_suffix data) as [spaces H].
  rewrite H at 2. rewrite length_app. lia.
Qed.

Lemma rstrip_prefix (data : bytes) :
  exists spaces, data = rstrip data ++ spaces.
Proof.
  unfold rstrip. destruct (lstrip_suffix (rev data)) as [spaces H].
  exists (rev spaces). rewrite <- rev_app_distr, <- H. now rewrite rev_involutive.
Qed.

Lemma length_rstrip (data : bytes) :
  (List.length (rstrip data) <= List.length data)%nat.
Proof.
  unfold rstrip. rewrite length_rev.
  pose proof (length_lstrip (rev data)) as H. now rewrite length_rev in H.
Qed.

Lemma last_rev_hd {A} (l : list A) (d : A) : last (rev l) d = hd d l.
Proof.
  destruct l as [|a l]; [reflexivity|]. cbn [rev hd]. apply last_last.
Qed.

Lemma rstrip_last (data : bytes) :
  rstrip data = [] \/ is_space (last (rstrip data) x00) = false.
Proof.
  unfold rstrip. destruct (lstrip_hd (rev data)) as [H|H].
  - left. now rewrite H.
  - right. now rewrite last_rev_hd.
Qed.

Lemma rstrip_shorter (data : bytes) :
  data <> [] -> is_space (last data x00) = true ->
  (List.length (rstrip data) < List.length data)%nat.
Proof.
  intros Hne Hsp. destruct (exists_last Hne) as (front & b & ->).
  rewrite last_last in Hsp. unfold rstrip.
  rewrite rev_app_distr. cbn [rev app lstrip]. rewrite Hsp.
  rewrite length_rev, length_app. cbn [List.length].
  pose proof (length_lstrip (rev front)) as H. rewrite length_rev in H. lia.
Qed.

Lemma length_strip (data : bytes) :
  (List.length (strip data) <= List.length data)%nat.
Proof.
  unfold strip. pose proof (length_rstrip (lstrip data)).
  pose proof (length_lstrip data). lia.
Qed.

Lemma strip_shorter (data : bytes) :
  data <> [] -> is_space (last data x00) = true ->
  (List.length (strip data) < List.length data)%nat.
Proof.
  intros Hne Hsp. unfold strip.
  destruct data as [|b rest]; [contradiction|].
  cbn [lstrip]. destruct (is_space b) eqn:Eb.
  - pose proof (length_rstrip (lstrip rest)).
    pose proof (length_lstrip rest). cbn [List.length]. lia.
  - now apply rstrip_shorter.
Qed.

Lemma strip_last (data : bytes) :
  strip data = [] \/ is_space (last (strip data) x00) = false.
Proof. unfold strip. apply rstrip_last. Qed.

Lemma strip_hd (data : bytes) :
  strip data = [] \/ is_space (hd x00 (strip data)) = false.
Proof.
  unfold strip. destruct (lstrip_hd data) as [H|H].
  - left. now rewrite H.
  - destruct (rstrip_prefix (lstrip data)) as [spaces Hp].
    destruct (rstrip (lstrip data)) as [|b rest] eqn:E; [now left|].
    right. rewrite Hp in H. exact H.
Qed.

Lemma length_recv_upto (n : Z) (stream : bytes) :
  0 <= n -> len (recv_upto n stream) <= n.
Proof.
  intros Hn. unfold len, recv_upto. rewrite length_firstn. lia.
Qed.

Lemma tcp_decode_Return (received query : bytes) :
  tcp_decode received = Return query ->
  exists hi lo,
    strip received = hi :: lo :: query /\
    256 * byte_to_Z hi + byte_to_Z lo = len query.
Proof.
  unfold tcp_decode.
  destruct (strip received) as [|hi [|lo rest]]; try discriminate.
  cbn [firstn struct_unpack_H skipn].
  replace (len (hi :: lo :: rest) - 2) with (len rest)
    by (unfold len; cbn [List.length]; lia).
  rewrite Z.gtb_ltb.
  destruct (Z.ltb_spec (256 * byte_to_Z hi + byte_to_Z lo) (len rest));
    [discriminate|].
  destruct (Z.ltb_spec (len rest) (256 * byte_to_Z hi + byte_to_Z lo));
    [discriminate|].
  intros [= <-]. exists hi, lo. split; [reflexivity | lia].
Qed.

Lemma TCP_get_data_Return (w : world) (query : bytes) :
  snd (TCP_get_data w) = Return query ->
  exists stream,
    request_stream w = Return stream /\
    tcp_decode (recv_upto 8192 stream) = Return query.
Proof.
  destruct (request_stream w) as [stream|e] eqn:E.
  - rewrite (TCP_get_data_decodes _ _ E). cbn [snd]. intros H.
    exists stream. split; [reflexivity | exact H].
  - unfold TCP_get_data, request_recv, bind, emit, lift, pure.
    rewrite E. cbn [fst snd]. intros H. discriminate H.
Qed.

(** X1. A query that [TCPRequestHandler.get_data] returns has at most 8190
    bytes, so its length always fits the 2-byte prefix that [send_data]
    and [forward_roots] pack. *)
Theorem TCP_get_data_bound (w : world) (query : bytes) :
  snd (TCP_get_data w) = Return query ->
  len query <= 8190 /\
  exists sz, struct_pack_H (len query) = Return sz.
Proof.
  intros H. apply TCP_get_data_Return in H. destruct H as (stream & _ & H).
  apply tcp_decode_Return in H. destruct H as (hi & lo & Hs & _).
  assert (Hb : len query <= 8190).
  { pose proof (length_strip (recv_upto 8192 stream)) as H1.
    pose proof (length_recv_upto 8192 stream ltac:(lia)) as H2.
    rewrite Hs in H1. unfold len in *. cbn [List.length] in H1. lia. }
  split; [exact Hb|].
  unfold struct_pack_H. pose proof (len_nonneg query).
  replace ((0 <=? len query) && (len query <=? 65535)) with true;
    [eexists; reflexivity|].
  symmetry. apply andb_true_iff. split; apply Z.leb_le; lia.
Qed.

Lemma TCP_get_data_bound_witness :
  len [x61; x62] <= 8190 /\
  exists sz, struct_pack_H (len [x61; x62]) = Return sz.
Proof.
  apply (TCP_get_data_bound
           (with_stream quiet_world (Return [x00; x02; x61; x62]))).
  reflexivity.
Defined.

Lemma tcp_decode_encode_stripped (received query : bytes) :
  tcp_decode received = Return query ->
  tcp_encode query = Return (strip received).
Proof.
  intros H. apply tcp_decode_Return in H. destruct H as (hi & lo & Hs & Hsz).
  unfold tcp_encode, struct_pack_H. rewrite Hs, <- Hsz.
  pose proof (byte_to_Z_range hi). pose proof (byte_to_Z_range lo).
  replace ((0 <=? 256 * byte_to_Z hi + byte_to_Z lo)
           && (256 * byte_to_Z hi + byte_to_Z lo <=? 65535)) with true
    by (symmetry; apply andb_true_iff; split; apply Z.leb_le; lia).
  replace ((256 * byte_to_Z hi + byte_to_Z lo) / 256) with (byte_to_Z hi)
    by (apply Z.div_unique with (r := byte_to_Z lo); lia).
  replace ((256 * byte_to_Z hi + byte_to_Z lo) mod 256) with (byte_to_Z lo)
    by (apply Z.mod_unique with (q := byte_to_Z hi); lia).
  now rewrite !byte_of_to_Z.
Qed.

(** X2. Decoding then encoding: when the TCP decoding of a read returns a
    query, framing that query gives back the read, stripped, byte for
    byte. *)
Theorem tcp_encode_decode (received query : bytes) :
  tcp_decode received = Return query ->
  tcp_encode query = Return (strip received).
Proof. apply tcp_decode_encode_stripped. Qed.

Lemma tcp_encode_decode_witness :
  tcp_encode [x61; x62] = Return (strip [x20; x00; x02; x61; x62; x0a]).
Proof.
  apply (tcp_encode_decode [x20; x00; x02; x61; x62; x0a] [x61; x62]).
  reflexivity.
Defined.

Lemma last_app_nonempty {A} (l1 l2 : list A) (d : A) :
  l2 <> [] -> last (l1 ++ l2) d = last l2 d.
Proof.
  intros Hne. induction l1 as [|a l1 IH]; [reflexivity|].
  cbn [app]. destruct (l1 ++ l2) eqn:E.
  - apply app_eq_nil in E. destruct E as [_ E]. contradiction.
  - cbn [last]. exact IH.
Qed.

Lemma tcp_encode_Return (data framed : bytes) :
  tcp_encode data = Return framed ->
  exists sz,
    struct_pack_H (len data) = Return sz /\ List.length sz = 2%nat /\
    framed = sz ++ data /\ len data <= 65535.
Proof.
  unfold tcp_encode, struct_pack_H.
  destruct ((0 <=? len data) && (len data <=? 65535)) eqn:E; [|discriminate].
  intros [= <-]. eexists. repeat split.
  apply andb_true_iff in E. destruct E as [_ E]. now apply Z.leb_le.
Qed.

Lemma length_recv_upto_stream (n : Z) (stream : bytes) :
  (List.length (recv_upto n stream) <= List.length stream)%nat.
Proof. unfold recv_upto. rewrite length_firstn. lia. Qed.

Lemma recv_upto_full (n : Z) (stream : bytes) :
  List.length (recv_upto n stream) = List.length stream ->
  recv_upto n stream = stream.
Proof.
  unfold recv_upto. rewrite length_firstn. intros H.
  apply firstn_all2. lia.
Qed.

(** X3. A non-empty query whose last byte is ASCII whitespace never survives
    the TCP framing round trip: decoding what [send_data] framed does not
    return it, since [get_data] strips the read first. *)
Theorem tcp_roundtrip_loses_trailing_space (query framed : bytes) :
  query <> [] ->
  is_space (last query x00) = true ->
  tcp_encode query = Return framed ->
  tcp_decode (recv_upto 8192 framed) <> Return query.
Proof.
  intros Hne Hsp He Hd.
  apply tcp_encode_Return in He. destruct He as (sz & _ & Hsz & -> & _).
  apply tcp_decode_Return in Hd. destruct Hd as (hi & lo & Hs & _).
  pose proof (length_strip (recv_upto 8192 (sz ++ query))) as H1.
  rewrite Hs in H1. cbn [List.length] in H1.
  pose proof (length_recv_upto_stream 8192 (sz ++ query)) as H2.
  assert (H3 : List.length (sz ++ query) = S (S (List.length query)))
    by (rewrite length_app, Hsz; reflexivity).
  assert (Hall : recv_upto 8192 (sz ++ query) = sz ++ query).
  { apply recv_upto_full.
    generalize dependent (recv_upto 8192 (sz ++ query)). intros r _ H1 H2.
    lia. }
  rewrite Hall in Hs.
  assert (Hlt : (List.length (strip (sz ++ query))
                 < List.length (sz ++ query))%nat).
  { apply strip_shorter.
    - intros E. apply app_eq_nil in E. destruct E as [_ E]. contradiction.
    - now rewrite last_app_nonempty. }
  rewrite Hs, H3 in Hlt. cbn [List.length] in Hlt. lia.
Qed.

Lemma tcp_roundtrip_loses_trailing_space_witness :
  tcp_decode (recv_upto 8192 [x00; x02; x61; x0a]) <> Return [x61; x0a].
Proof.
  apply (tcp_roundtrip_loses_trailing_space [x61; x0a] [x00; x02; x61; x0a]).
  - discriminate.
  - reflexivity.
  - reflexivity.
Defined.

(** X4. The query that [get_data] returns never ends in an ASCII whitespace
    byte, on either transport; on UDP it never begins with one either. *)
Theorem get_data_is_stripped (h : handler) (w : world) (query : bytes) :
  h = TCPRequestHandler \/ h = UDPRequestHandler ->
  snd (get_data h w) = Return query ->
  (query = [] \/ is_space (last query x00) = false) /\
  (h = UDPRequestHandler ->
   query = [] \/ is_space (hd x00 query) = false).
Proof.
  intros [-> | ->]; cbn [get_data TCPRequestHandler UDPRequestHandler];
    intros Hq.
  - split; [|discriminate].
    apply TCP_get_data_Return in Hq. destruct Hq as (stream & _ & Hq).
    apply tcp_decode_Return in Hq. destruct Hq as (hi & lo & Hs & _).
    destruct query as [|b rest]; [now left|]. right.
    destruct (strip_last (recv_upto 8192 stream)) as [H|H];
      rewrite Hs in H; [discriminate | exact H].
  - unfold UDP_get_data, pure in Hq. cbn [snd] in Hq. injection Hq as <-.
    split; [apply strip_last | intros _; apply strip_hd].
Qed.

Lemma get_data_is_stripped_witness :
  ([x61] = [] \/ is_space (last [x61] x00) = false) /\
  (UDPRequestHandler = UDPRequestHandler ->
   [x61] = [] \/ is_space (hd x00 [x61]) = false).
Proof.
  apply (get_data_is_stripped UDPRequestHandler
           (answering_world (0, None)) [x61]).
  - right. reflexivity.
  - reflexivity.
Defined.

(** X5. [TCPRequestHandler.send_data] on data of more than 65535 bytes raises
    [struct.error] before anything is written; on shorter data it writes
    exactly one frame: two bytes that unpack to the data's length, then the
    data. *)
Theorem TCP_send_data_frames (w : world) (data : bytes) :
  (65535 < len data ->
   TCP_send_data w data =
     ([], Raise (StructError "'H' format requires 0 <= number <= 65535"))) /\
  (len data <= 65535 ->
   exists framed,
     request_sends (fst (TCP_send_data w data)) = [framed] /\
     len framed = len data + 2 /\
     struct_unpack_H (firstn 2 framed) = Return (len data) /\
     skipn 2 framed = data).
Proof.
  pose proof (len_nonneg data) as H0. split; intros Hlen.
  - unfold TCP_send_data, tcp_encode, struct_pack_H.
    replace ((0 <=? len data) && (len data <=? 65535)) with false;
      [reflexivity|].
    symmetry. apply andb_false_iff. right. apply Z.leb_gt. lia.
  - assert (Hp : struct_pack_H (len data) =
                 Return [byte_of_Z (len data / 256);
                         byte_of_Z (len data mod 256)]).
    { unfold struct_pack_H.
      replace ((0 <=? len data) && (len data <=? 65535)) with true;
        [reflexivity|].
      symmetry. apply andb_true_iff. split; apply Z.leb_le; lia. }
    exists ([byte_of_Z (len data / 256); byte_of_Z (len data mod 256)]
            ++ data).
    split; [|split; [|split]].
    + rewrite (TCP_send_data_writes w data
                 ([byte_of_Z (len data / 256); byte_of_Z (len data mod 256)]
                  ++ data));
        [apply request_sends_write|].
      unfold tcp_encode. now rewrite Hp.
    + rewrite len_app. unfold len at 1. cbn [List.length]. lia.
    + cbn [app firstn]. now apply struct_unpack_pack.
    + reflexivity.
Qed.

Lemma TCP_send_data_frames_witness :
  exists framed,
    request_sends (fst (TCP_send_data quiet_world [x61; x62])) = [framed] /\
    len framed = len [x61; x62] + 2 /\
    struct_unpack_H (firstn 2 framed) = Return (len [x61; x62]) /\
    skipn 2 framed = [x61; x62].
Proof.
  apply (TCP_send_data_frames quiet_world [x61; x62]).
  vm_compute. discriminate.
Defined.

(** * Further properties of the forwarders *)

Lemma connect_fails_OSError (w : world) (i : nat) (e : exn) :
  on_connect (upstream w i) = Some e -> is_OSError e = true ->
  TCP_connect_fails w i.
Proof.
  intros Hc He. destruct e; try discriminate. now exists msg.
Qed.

Lemma TCP_all_refuse (w : world) (data : bytes) :
  forall rest i,
    (forall j, (j < List.length rest)%nat -> TCP_connect_fails w (i + j)) ->
    let t := fst (TCP_forward_from w data i rest) in
    snd (TCP_forward_from w data i rest) = Return tt /\
    contacted t = map target_addr rest /\
    closed t = seq i (List.length rest) /\
    map Some (logged_errors ERROR t) =
      map (fun j => on_connect (upstream w j)) (seq i (List.length rest)) /\
    request_sends t = [] /\
    upstream_sends t = [].
Proof.
  induction rest as [|[ip port] rest IH]; intros i Hall; [repeat split|].
  destruct (Hall 0%nat ltac:(cbn [List.length]; lia)) as [msg Hc].
  rewrite Nat.add_0_r in Hc.
  destruct (IH (S i)) as (H1 & H2 & H3 & H4 & H5 & H6).
  { intros j Hj. rewrite Nat.add_succ_l, <- Nat.add_succ_r. apply Hall.
    cbn [List.length]. lia. }
  cbv zeta. rewrite TCP_forward_step. cbv zeta. rewrite Hc.
  cbn [is_OSError fst snd app contacted closed logged_errors level_eqb
       request_sends upstream_sends List.length seq map].
  rewrite H1, H2, H3, H4, H5, H6, Hc. repeat split.
Qed.

(** X6. When every root refuses the connection with a socket error, the TCP
    forwarder returns normally after having tried every root in declared
    order: each error is logged at ERROR level, each socket is closed, the
    query is sent to no upstream and nothing is written to the requester. *)
Theorem TCP_forward_roots_all_refuse (w : world) (data : bytes) :
  (forall i, (i < List.length (roots (config w)))%nat ->
             TCP_connect_fails w i) ->
  let t := fst (TCP_forward_roots w data) in
  let n := List.length (roots (config w)) in
  snd (TCP_forward_roots w data) = Return tt /\
  contacted t = map target_addr (roots (config w)) /\
  closed t = seq 0 n /\
  map Some (logged_errors ERROR t) =
    map (fun i => on_connect (upstream w i)) (seq 0 n) /\
  request_sends t = [] /\
  upstream_sends t = [].
Proof.
  intros Hall. apply (TCP_all_refuse w data (roots (config w)) 0%nat).
  intros j Hj. now apply Hall.
Qed.

Lemma TCP_forward_roots_all_refuse_witness :
  let t := fst (TCP_forward_roots unreachable_world [x01]) in
  snd (TCP_forward_roots unreachable_world [x01]) = Return tt /\
  contacted t = [("192.0.2.1", 53); ("192.0.2.2", 5353)] /\
  closed t = [0; 1]%nat /\
  map Some (logged_errors ERROR t) =
    [Some (OSError "Connection refused"); Some (OSError "Connection refused")] /\
  request_sends t = [] /\
  upstream_sends t = [].
Proof.
  apply (TCP_forward_roots_all_refuse unreachable_world [x01]).
  intros i _. exists "Connection refused". reflexivity.
Defined.

Lemma UDP_all_fail (w : world) (data : bytes) :
  forall rest i,
    (forall j, (j < List.length rest)%nat -> UDP_exchange_fails w (i + j)) ->
    let t := fst (UDP_forward_from w data i rest) in
    snd (UDP_forward_from w data i rest) = Return tt /\
    contacted t = map target_addr rest /\
    closed t = [] /\
    map Some (logged_errors DEBUG t) =
      map (UDP_error w) (seq i (List.length rest)) /\
    request_sends t = [] /\
    upstream_sends t = repeat data (List.length rest).
Proof.
  induction rest as [|[ip port] rest IH]; intros i Hall; [repeat split|].
  pose proof (Hall 0%nat ltac:(cbn [List.length]; lia)) as Hf.
  rewrite Nat.add_0_r in Hf.
  destruct (IH (S i)) as (H1 & H2 & H3 & H4 & H5 & H6).
  { intros j Hj. rewrite Nat.add_succ_l, <- Nat.add_succ_r. apply Hall.
    cbn [List.length]. lia. }
  cbv zeta. rewrite UDP_forward_step. cbv zeta.
  destruct Hf as [[msg Hs] | [Hs [msg Hr]]].
  - rewrite Hs.
    cbn [is_OSError fst snd app contacted closed logged_errors level_eqb
         request_sends upstream_sends List.length seq map repeat].
    rewrite H1, H2, H3, H4, H5, H6. unfold UDP_error at 2. rewrite Hs.
    repeat split.
  - rewrite Hs, Hr.
    cbn [is_OSError fst snd app contacted closed logged_errors level_eqb
         request_sends upstream_sends List.length seq map repeat].
    rewrite H1, H2, H3, H4, H5, H6. unfold UDP_error at 2. rewrite Hs, Hr.
    repeat split.
Qed.

(** X7. When the exchange with every root fails with a socket error ([sendto]
    or [recv], a timeout included), the UDP forwarder returns normally
    after having sent the query, unchanged, to every root in declared order:
    each error is logged at DEBUG level, no socket is closed and nothing is
    written to the requester. *)
Theorem UDP_forward_roots_all_fail (w : world) (data : bytes) :
  (forall i, (i < List.length (roots (config w)))%nat ->
             UDP_exchange_fails w i) ->
  let t := fst (UDP_forward_roots w data) in
  let n := List.length (roots (config w)) in
  snd (UDP_forward_roots w data) = Return tt /\
  contacted t = map target_addr (roots (config w)) /\
  closed t = [] /\
  map Some (logged_errors DEBUG t) = map (UDP_error w) (seq 0 n) /\
  request_sends t = [] /\
  upstream_sends t = repeat data n.
Proof.
  intros Hall. apply (UDP_all_fail w data (roots (config w)) 0%nat).
  intros j Hj. now apply Hall.
Qed.

Lemma UDP_forward_roots_all_fail_witness :
  let t := fst (UDP_forward_roots unreachable_world [x01]) in
  snd (UDP_forward_roots unreachable_world [x01]) = Return tt /\
  contacted t = [("192.0.2.1", 53); ("192.0.2.2", 5353)] /\
  closed t = [] /\
  map Some (logged_errors DEBUG t) =
    [Some (OSError "Network is unreachable");
     Some (OSError "Network is unreachable")] /\
  request_sends t = [] /\
  upstream_sends t = [[x01]; [x01]].
Proof.
  apply (UDP_forward_roots_all_fail unreachable_world [x01]).
  intros i _. left. exists "Network is unreachable". reflexivity.
Defined.

Lemma TCP_exchange_fault (w : world) (data : bytes) (e : exn) :
  forall rest i n,
    (n < List.length rest)%nat ->
    (forall j, (j < n)%nat -> TCP_connect_fails w (i + j)) ->
    on_connect (upstream w (i + n)) = None ->
    TCP_exchange_raises w data (i + n) e ->
    let t := fst (TCP_forward_from w data i rest) in
    snd (TCP_forward_from w data i rest) = Raise e /\
    contacted t = firstn (S n) (map target_addr rest) /\
    request_sends t = [] /\
    closed t = seq i n.
Proof.
  induction rest as [|[ip port] rest IH]; intros i n Hn Hskip Hc Hx;
    [cbn [List.length] in Hn; lia|].
  cbv zeta. rewrite TCP_forward_step. cbv zeta.
  destruct n as [|n].
  - rewrite Nat.add_0_r in Hc, Hx. rewrite Hc.
    destruct Hx as [Hp | (sz & Hp & [Hs | [Hs Hr]])]; rewrite Hp.
    + repeat split.
    + rewrite Hs. repeat split.
    + rewrite Hs, Hr. repeat split.
  - destruct (Hskip 0%nat ltac:(lia)) as [msg Hrefused].
    rewrite Nat.add_0_r in Hrefused. rewrite Hrefused.
    destruct (IH (S i) n) as (H1 & H2 & H3 & H4).
    + cbn [List.length] in Hn. lia.
    + intros j Hj. rewrite Nat.add_succ_l, <- Nat.add_succ_r.
      apply Hskip. lia.
    + now rewrite Nat.add_succ_l, <- Nat.add_succ_r.
    + now rewrite Nat.add_succ_l, <- Nat.add_succ_r.
    + cbn [is_OSError fst snd app contacted request_sends closed map firstn
           seq].
      rewrite H1, H2, H3, H4. repeat split.
Qed.

Lemma UDP_exchange_fault (w : world) (data : bytes) (e : exn) :
  forall rest i n,
    (n < List.length rest)%nat ->
    (forall j, (j < n)%nat -> UDP_exchange_fails w (i + j)) ->
    UDP_exchange_raises w (i + n) e ->
    let t := fst (UDP_forward_from w data i rest) in
    snd (UDP_forward_from w data i rest) = Raise e /\
    contacted t = firstn (S n) (map target_addr rest) /\
    request_sends t = [].
Proof.
  induction rest as [|[ip port] rest IH]; intros i n Hn Hskip Hx;
    [cbn [List.length] in Hn; lia|].
  cbv zeta. rewrite UDP_forward_step. cbv zeta.
  destruct n as [|n].
  - rewrite Nat.add_0_r in Hx. destruct Hx as [Hos [Hs | [Hs Hr]]].
    + rewrite Hs, Hos. repeat split.
    + rewrite Hs, Hr, Hos. repeat split.
  - destruct (IH (S i) n) as (H1 & H2 & H3).
    + cbn [List.length] in Hn. lia.
    + intros j Hj. rewrite Nat.add_succ_l, <- Nat.add_succ_r.
      apply Hskip. lia.
    + now rewrite Nat.add_succ_l, <- Nat.add_succ_r.
    + pose proof (Hskip 0%nat ltac:(lia)) as Hf.
      rewrite Nat.add_0_r in Hf.
      destruct Hf as [[msg Hs] | [Hs [msg Hr]]].
      * rewrite Hs.
        cbn [is_OSError fst snd app contacted request_sends map firstn].
        rewrite H1, H2, H3. repeat split.
      * rewrite Hs, Hr.
        cbn [is_OSError fst snd app contacted request_sends map firstn].
        rewrite H1, H2, H3. repeat split.
Qed.

(** X8. A fault of the exchange with an upstream ends the forwarding.  Over
    TCP, at the first root whose connect succeeds (the roots before it
    having refused with socket errors), any exception of framing the query,
    of [sendall] or of [recv], a socket error or a timeout included, is
    raised out of [forward_roots]: no later root is contacted, nothing is
    written to the requester, and only the refused sockets were closed.
    Over UDP the same holds for an exception of [sendto] or [recv] that is
    no socket error. *)
Theorem forward_roots_exchange_fault (w : world) (data : bytes) (i : nat)
    (e : exn) :
  (i < List.length (roots (config w)))%nat ->
  let targets := map target_addr (roots (config w)) in
  ((forall j, (j < i)%nat -> TCP_connect_fails w j) ->
   on_connect (upstream w i) = None ->
   TCP_exchange_raises w data i e ->
   snd (TCP_forward_roots w data) = Raise e /\
   contacted (fst (TCP_forward_roots w data)) = firstn (S i) targets /\
   request_sends (fst (TCP_forward_roots w data)) = [] /\
   closed (fst (TCP_forward_roots w data)) = seq 0 i) /\
  ((forall j, (j < i)%nat -> UDP_exchange_fails w j) ->
   UDP_exchange_raises w i e ->
   snd (UDP_forward_roots w data) = Raise e /\
   contacted (fst (UDP_forward_roots w data)) = firstn (S i) targets /\
   request_sends (fst (UDP_forward_roots w data)) = []).
Proof.
  intros Hi targets. split.
  - intros Hskip Hc Hx.
    apply (TCP_exchange_fault w data e (roots (config w)) 0%nat i Hi);
      assumption.
  - intros Hskip Hx.
    apply (UDP_exchange_fault w data e (roots (config w)) 0%nat i Hi);
      assumption.
Qed.

Lemma forward_roots_exchange_fault_witness :
  snd (TCP_forward_roots recv_timeout_world [x01]) =
    Raise (OSError "timed out") /\
  contacted (fst (TCP_forward_roots recv_timeout_world [x01])) =
    [("192.0.2.1", 53)] /\
  request_sends (fst (TCP_forward_roots recv_timeout_world [x01])) = [] /\
  closed (fst (TCP_forward_roots recv_timeout_world [x01])) = [].
Proof.
  apply (forward_roots_exchange_fault recv_timeout_world [x01] 0%nat
           (OSError "timed out")).
  - vm_compute. lia.
  - intros j Hj. lia.
  - reflexivity.
  - right. exists [x00; x01]. split; [reflexivity|]. right.
    split; reflexivity.
Defined.

Lemma TCP_closed_iff (w : world) (data : bytes) :
  forall rest i j,
    In j (closed (fst (TCP_forward_from w data i rest))) <->
    In j (sockets (fst (TCP_forward_from w data i rest))) /\
    TCP_connect_fails w j.
Proof.
  induction rest as [|[ip port] rest IH]; intros i j; [cbn; tauto|].
  rewrite TCP_forward_step. cbv zeta.
  destruct (on_connect (upstream w i)) as [e|] eqn:Ec.
  { destruct (is_OSError e) eqn:Eos.
    - cbn [fst app closed sockets In]. rewrite IH.
      pose proof (connect_fails_OSError w i e Ec Eos) as Hf.
      split.
      + intros [<- | [Hs Hfj]]; [split; [now left | exact Hf]|].
        split; [now right | exact Hfj].
      + intros [[<- | Hs] Hfj]; [now left | right; now split].
    - cbn [fst closed sockets In]. split; [tauto|].
      intros [[<- | []] [msg Hm]]. rewrite Ec in Hm. injection Hm as ->.
      discriminate. }
  assert (Hnf : ~ TCP_connect_fails w i)
    by (intros [msg Hm]; rewrite Ec in Hm; discriminate).
  assert (Hno : forall t,
             closed t = [] -> sockets t = [i] ->
             (In j (closed t) <-> In j (sockets t) /\ TCP_connect_fails w j)).
  { intros t -> ->. cbn [In]. split; [tauto|].
    intros [[<- | []] Hf]. now apply Hnf. }
  destruct (struct_pack_H (len data)) as [sz|e];
    [destruct (on_send (upstream w i)) as [e|];
     [|destruct (on_recv (upstream w i)) as [reply|e]]|];
    apply Hno; cbn [fst app closed sockets]; try reflexivity;
    unfold request_write; destruct (request_send w _); reflexivity.
Qed.

Lemma UDP_closed_none (w : world) (data : bytes) :
  forall rest i, closed (fst (UDP_forward_from w data i rest)) = [].
Proof.
  induction rest as [|[ip port] rest IH]; intros i; [reflexivity|].
  rewrite UDP_forward_step. cbv zeta.
  destruct (on_send (upstream w i)) as [e|].
  { destruct (is_OSError e); cbn [fst app closed]; [apply IH | reflexivity]. }
  destruct (on_recv (upstream w i)) as [reply|e].
  - cbn [fst app closed]. unfold request_write.
    destruct (request_send w _); reflexivity.
  - destruct (is_OSError e); cbn [fst app closed]; [apply IH | reflexivity].
Qed.

(** X9. Which forwarding sockets get closed.  The TCP forwarder closes exactly
    the sockets whose connect failed with a socket error: the socket of a
    successful connect is left open, whether the exchange on it succeeds or
    fails.  The UDP forwarder closes none of the sockets it opens. *)
Theorem forward_roots_closes (w : world) (data : bytes) (i : nat) :
  (In i (closed (fst (TCP_forward_roots w data))) <->
   In i (sockets (fst (TCP_forward_roots w data))) /\
   TCP_connect_fails w i) /\
  closed (fst (UDP_forward_roots w data)) = [].
Proof.
  split.
  - apply TCP_closed_iff.
  - apply UDP_closed_none.
Qed.

Lemma timeouts_first_write (w : world) (b : bytes) (armed : list nat) :
  timeouts_first armed (fst (request_write w b)) = true.
Proof. unfold request_write. destruct (request_send w b); reflexivity. Qed.

Lemma TCP_timeouts_first (w : world) (data : bytes) :
  forall rest i armed,
    timeouts_first armed (fst (TCP_forward_from w data i rest)) = true.
Proof.
  induction rest as [|[ip port] rest IH]; intros i armed; [reflexivity|].
  rewrite TCP_forward_step. cbv zeta.
  destruct (on_connect (upstream w i)) as [e|].
  { destruct (is_OSError e);
      cbn [fst app timeouts_first existsb]; rewrite Nat.eqb_refl;
      cbn [orb andb]; [apply IH | reflexivity]. }
  destruct (struct_pack_H (len data)) as [sz|e];
    [destruct (on_send (upstream w i)) as [e|];
     [|destruct (on_recv (upstream w i)) as [reply|e]]|];
    cbn [fst app timeouts_first existsb]; rewrite Nat.eqb_refl;
    cbn [orb andb]; try reflexivity.
  apply timeouts_first_write.
Qed.

Lemma UDP_timeouts_first (w : world) (data : bytes) :
  forall rest i armed,
    timeouts_first armed (fst (UDP_forward_from w data i rest)) = true.
Proof.
  induction rest as [|[ip port] rest IH]; intros i armed; [reflexivity|].
  rewrite UDP_forward_step. cbv zeta.
  destruct (on_send (upstream w i)) as [e|].
  { destruct (is_OSError e);
      cbn [fst app timeouts_first existsb]; rewrite Nat.eqb_refl;
      cbn [orb andb]; [apply IH | reflexivity]. }
  destruct (on_recv (upstream w i)) as [reply|e].
  - cbn [fst app timeouts_first existsb]. rewrite Nat.eqb_refl.
    cbn [orb andb]. apply timeouts_first_write.
  - destruct (is_OSError e);
      cbn [fst app timeouts_first existsb]; rewrite Nat.eqb_refl;
      cbn [orb andb]; [apply IH | reflexivity].
Qed.

(** X10. Neither forwarder ever connects, sends or receives on a forwarding
    socket before the timeout has been set on that socket. *)
Theorem forward_roots_timeouts_first (w : world) (data : bytes) :
  timeouts_first [] (fst (TCP_forward_roots w data)) = true /\
  timeouts_first [] (fst (UDP_forward_roots w data)) = true.
Proof.
  split; [apply TCP_timeouts_first | apply UDP_timeouts_first].
Qed.

Lemma upstream_sends_write (w : world) (b : bytes) :
  upstream_sends (fst (request_write w b)) = [].
Proof. unfold request_write. destruct (request_send w b); reflexivity. Qed.

Lemma TCP_upstream_sends (w : world) (data : bytes) :
  forall rest i,
    upstream_sends (fst (TCP_forward_from w data i rest)) = [] \/
    exists sz,
      struct_pack_H (len data) = Return sz /\
      upstream_sends (fst (TCP_forward_from w data i rest)) = [sz ++ data].
Proof.
  induction rest as [|[ip port] rest IH]; intros i; [now left|].
  rewrite TCP_forward_step. cbv zeta.
  destruct (on_connect (upstream w i)) as [e|].
  { destruct (is_OSError e); cbn [fst app upstream_sends];
      [apply IH | now left]. }
  destruct (struct_pack_H (len data)) as [sz|e]; [|now left].
  right. exists sz. split; [reflexivity|].
  destruct (on_send (upstream w i)) as [e|];
    [|destruct (on_recv (upstream w i)) as [reply|e]];
    cbn [fst app upstream_sends]; rewrite ?upstream_sends_write; reflexivity.
Qed.

Lemma UDP_upstream_sends (w : world) (data : bytes) :
  forall rest i,
    upstream_sends (fst (UDP_forward_from w data i rest)) =
    repeat data (List.length (contacted (fst (UDP_forward_from w data i rest)))).
Proof.
  induction rest as [|[ip port] rest IH]; intros i; [reflexivity|].
  rewrite UDP_forward_step. cbv zeta.
  destruct (on_send (upstream w i)) as [e|].
  { destruct (is_OSError e);
      cbn [fst app upstream_sends contacted List.length repeat];
      [now rewrite IH | reflexivity]. }
  destruct (on_recv (upstream w i)) as [reply|e].
  - cbn [fst app upstream_sends contacted List.length repeat].
    now rewrite upstream_sends_write, contacted_write.
  - destruct (is_OSError e);
      cbn [fst app upstream_sends contacted List.length repeat];
      [now rewrite IH | reflexivity].
Qed.

(** X11. What is sent upstream.  The TCP forwarder sends the query to at most
    one upstream, as the query behind its packed 2-byte length.  The UDP
    forwarder sends the query, unchanged, once to each root it contacts. *)
Theorem forward_roots_upstream_sends (w : world) (data : bytes) :
  (upstream_sends (fst (TCP_forward_roots w data)) = [] \/
   exists sz,
     struct_pack_H (len data) = Return sz /\
     upstream_sends (fst (TCP_forward_roots w data)) = [sz ++ data]) /\
  upstream_sends (fst (UDP_forward_roots w data)) =
    repeat data (List.length (contacted (fst (UDP_forward_roots w data)))).
Proof.
  split; [apply TCP_upstream_sends | apply UDP_upstream_sends].
Qed.

Lemma TCP_reply_bound (w : world) (data r : bytes) (i : nat) :
  TCP_reply w data i = Some r -> len r <= 8192.
Proof.
  unfold TCP_reply.
  destruct (on_connect (upstream w i)); [discriminate|].
  destruct (struct_pack_H (len data)); [|discriminate].
  destruct (on_send (upstream w i)); [discriminate|].
  destruct (on_recv (upstream w i)); [|discriminate].
  intros [= <-]. apply length_recv_upto. lia.
Qed.

Lemma UDP_reply_bound (w : world) (r : bytes) (i : nat) :
  UDP_reply w i = Some r -> len r <= 8192.
Proof.
  unfold UDP_reply.
  destruct (on_send (upstream w i)); [discriminate|].
  destruct (on_recv (upstream w i)); [|discriminate].
  intros [= <-]. apply length_recv_upto. lia.
Qed.

(** X12. Whatever a forwarder writes to the requester is at most 8192 bytes
    long, and it writes at most once. *)
Theorem forward_roots_relay_bound (tcp : bool) (w : world) (data : bytes) :
  let forward := if tcp then TCP_forward_roots else UDP_forward_roots in
  (List.length (request_sends (fst (forward w data))) <= 1)%nat /\
  forall b, In b (request_sends (fst (forward w data))) -> len b <= 8192.
Proof.
  cbv zeta.
  assert (Hrun : exists reply : nat -> option bytes,
             (forall i r, reply i = Some r -> len r <= 8192) /\
             exists fails k,
               forward_run reply fails 0 (roots (config w))
                 (fst ((if tcp then TCP_forward_roots
                        else UDP_forward_roots) w data)) k).
  { destruct tcp.
    - exists (TCP_reply w data). split; [intros i r; apply TCP_reply_bound|].
      exists (TCP_connect_fails w). apply TCP_forward_from_run.
    - exists (UDP_reply w). split; [intros i r; apply UDP_reply_bound|].
      exists (UDP_exchange_fails w). apply UDP_forward_from_run. }
  destruct Hrun as (reply & Hb & fails & k & _ & _ & _ & _ & Hsend & _).
  rewrite Hsend. destruct k as [|j]; [split; [cbn; lia | intros b []]|].
  destruct (reply (0 + j)%nat) as [r|] eqn:Er;
    [|split; [cbn; lia | intros b []]].
  split; [cbn; lia|]. intros b [<- | []]. apply (Hb _ _ Er).
Qed.

(** * Further properties of the dispatcher and of the access filter *)

Lemma handle_try_framing_fault (h : handler) (w : world)
    (denylist : list string) (e : exn) :
  snd (get_data h w) = Raise e ->
  handle_try h w denylist = (fst (get_data h w), Raise e).
Proof. intros Hg. unfold handle_try. now rewrite (bind_Raise _ _ _ Hg). Qed.

Lemma handle_try_lookup_fault (h : handler) (w : world)
    (denylist : list string) (data : bytes) (e : exn) :
  snd (get_data h w) = Return data ->
  dns_response w data (db_path (config w)) (lower (name3 h)) denylist =
    Raise e ->
  handle_try h w denylist = (fst (get_data h w), Raise e).
Proof.
  intros Hg Hl. unfold handle_try.
  rewrite (fst_bind_Return _ _ _ Hg), Hl, bind_lift_Raise. cbn [fst snd raise].
  now rewrite app_nil_r.
Qed.

(** X13. A fault before the routing (the framing fails, or the local lookup
    raises) ends the cycle without any traffic: nothing is written to the
    requester, no forwarding socket is opened, the fault is printed and
    [handle] returns normally. *)
Theorem handle_fault_before_routing (h : handler) (w : world)
    (denylist : list string) (e : exn) :
  h = TCPRequestHandler \/ h = UDPRequestHandler ->
  snd (get_denied_types w (fst (client_address w))) = Return denylist ->
  snd (get_data h w) = Raise e \/
  (exists data,
      snd (get_data h w) = Return data /\
      dns_response w data (db_path (config w)) (lower (name3 h)) denylist =
        Raise e) ->
  snd (handle h w) = Return tt /\
  no_traffic (fst (handle h w)) /\
  reported (fst (handle h w)) = [e].
Proof.
  intros Hh Hd Hfault.
  assert (Ht : handle_try h w denylist = (fst (get_data h w), Raise e)).
  { destruct Hfault as [Hg | (data & Hg & Hl)].
    - now apply handle_try_framing_fault.
    - now apply handle_try_lookup_fault with (data := data). }
  rewrite (handle_caught _ _ _ Hd), Ht. cbn [fst snd].
  destruct (no_traffic_denied_from (fst (client_address w))
              (client_denylist (config w)) []) as [Hn Hr].
  fold (get_denied_types w (fst (client_address w))) in Hn, Hr.
  destruct (no_traffic_get_data h w Hh) as [Hn' Hr'].
  split; [reflexivity|]. split.
  - apply (no_traffic_app [_]); [unfold no_traffic; repeat split|].
    apply no_traffic_app; [exact Hn|].
    apply (no_traffic_app [_]); [unfold no_traffic; repeat split|].
    apply no_traffic_app; [exact Hn' | unfold no_traffic; repeat split].
  - cbn [reported]. rewrite reported_app, Hr. cbn [app reported].
    rewrite reported_app, Hr'. reflexivity.
Qed.

Lemma handle_fault_before_routing_witness :
  snd (handle TCPRequestHandler quiet_world) = Return tt /\
  no_traffic (fst (handle TCPRequestHandler quiet_world)) /\
  reported (fst (handle TCPRequestHandler quiet_world)) =
    [StructError "unpack requires a buffer of 2 bytes"].
Proof.
  apply (handle_fault_before_routing TCPRequestHandler quiet_world []).
  - left. reflexivity.
  - reflexivity.
  - left. reflexivity.
Defined.

(** X14. A status code other than 0, 1 and 2 is logged as an error and nothing
    else happens: no traffic, no exception, a normal return. *)
Theorem handle_undefined_status (h : handler) (w : world)
    (denylist : list string) (data : bytes) (retcode : Z)
    (retdata : option bytes) :
  h = TCPRequestHandler \/ h = UDPRequestHandler ->
  snd (get_denied_types w (fst (client_address w))) = Return denylist ->
  snd (get_data h w) = Return data ->
  dns_response w data (db_path (config w)) (lower (name3 h)) denylist =
    Return (retcode, retdata) ->
  retcode <> 0 -> retcode <> 1 -> retcode <> 2 ->
  snd (handle h w) = Return tt /\
  no_traffic (fst (handle h w)) /\
  reported (fst (handle h w)) = [] /\
  exists head,
    fst (handle h w) = head ++ [Log ERROR (Text "undefined error code ")].
Proof.
  intros Hh Hd Hg Hl H0 H1 H2.
  rewrite (handle_routes _ _ _ _ _ _ Hd Hg Hl). cbn [fst snd].
  destruct (no_traffic_head h w denylist retcode Hh) as [Hn Hr].
  cbv zeta in Hn, Hr.
  unfold route.
  apply Z.eqb_neq in H0, H1, H2. rewrite H0, H1, H2. cbn [fst snd].
  rewrite app_nil_r.
  split; [reflexivity|]. split; [|split].
  - apply no_traffic_app; [exact Hn | unfold no_traffic; repeat split].
  - rewrite reported_app, Hr. reflexivity.
  - eexists. reflexivity.
Qed.

Lemma handle_undefined_status_witness :
  let w := answering_world (7, Some [x41]) in
  snd (handle UDPRequestHandler w) = Return tt /\
  no_traffic (fst (handle UDPRequestHandler w)) /\
  reported (fst (handle UDPRequestHandler w)) = [] /\
  exists head,
    fst (handle UDPRequestHandler w) =
    head ++ [Log ERROR (Text "undefined error code ")].
Proof.
  intros w.
  apply (handle_undefined_status UDPRequestHandler w [] [x61] 7 (Some [x41]));
    try reflexivity; try discriminate.
  right. reflexivity.
Defined.

(** X15. The methods of the base class are not implemented: [handle] on a class
    that does not override [get_data] catches the [NotImplementedError],
    prints it and returns, having done nothing else. *)
Theorem handle_base_class (w : world) (denylist : list string) :
  snd (get_denied_types w (fst (client_address w))) = Return denylist ->
  handle BaseRequestHandler w =
  (Log INFO (RequestLine "Bas" (fst (client_address w))
                         (snd (client_address w)))
     :: fst (get_denied_types w (fst (client_address w)))
     ++ [Log DEBUG (Denied denylist); PrintExc NotImplementedError],
   Return tt).
Proof.
  intros Hd. rewrite (handle_caught _ _ _ Hd). reflexivity.
Qed.

Lemma handle_base_class_witness :
  handle BaseRequestHandler quiet_world =
  ([Log INFO (RequestLine "Bas" "10.0.0.7" 40000); Log DEBUG (Denied []);
    PrintExc NotImplementedError],
   Return tt).
Proof.
  apply (handle_base_class quiet_world []). reflexivity.
Defined.

Lemma forward_run_sends (reply : nat -> option bytes) (fails : nat -> Prop)
    (i : nat) (rest : list (string * option Z)) (t : list event) (k : nat) :
  forward_run reply fails i rest t k ->
  (List.length (request_sends t) <= 1)%nat.
Proof.
  intros (_ & _ & _ & _ & Hsend & _). rewrite Hsend.
  destruct k as [|j]; [cbn; lia|].
  destruct (reply (i + j)%nat); cbn; lia.
Qed.

Lemma send_data_sends_le1 (h : handler) (w : world) (data : bytes) :
  h = TCPRequestHandler \/ h = UDPRequestHandler ->
  (List.length (request_sends (fst (send_data h w data))) <= 1)%nat.
Proof.
  intros [-> | ->]; cbn [send_data TCPRequestHandler UDPRequestHandler].
  - unfold TCP_send_data. destruct (tcp_encode data) as [framed|e].
    + rewrite bind_lift_Return, request_sends_write. cbn. lia.
    + rewrite bind_lift_Raise. cbn. lia.
  - unfold UDP_send_data. rewrite request_sends_write. cbn. lia.
Qed.

Lemma forward_roots_sends_le1 (h : handler) (w : world) (data : bytes) :
  h = TCPRequestHandler \/ h = UDPRequestHandler ->
  (List.length (request_sends (fst (forward_roots h w data))) <= 1)%nat.
Proof.
  intros [-> | ->]; cbn [forward_roots TCPRequestHandler UDPRequestHandler].
  - destruct (TCP_forward_from_run w data (roots (config w)) 0%nat) as [k Hk].
    apply (forward_run_sends _ _ _ _ _ _ Hk).
  - destruct (UDP_forward_from_run w data (roots (config w)) 0%nat) as [k Hk].
    apply (forward_run_sends _ _ _ _ _ _ Hk).
Qed.

Lemma handle_try_sends_le1 (h : handler) (w : world)
    (denylist : list string) :
  h = TCPRequestHandler \/ h = UDPRequestHandler ->
  (List.length (request_sends (fst (handle_try h w denylist))) <= 1)%nat.
Proof.
  intros Hh.
  destruct (no_traffic_get_data h w Hh) as [(Hg0 & _ & _) _].
  destruct (snd (get_data h w)) as [data|e] eqn:Hg.
  2: { rewrite (handle_try_framing_fault _ _ _ _ Hg). cbn [fst].
       rewrite Hg0. cbn. lia. }
  destruct (dns_response w data (db_path (config w)) (lower (name3 h))
              denylist) as [[retcode retdata]|e] eqn:Hl.
  2: { rewrite (handle_try_lookup_fault _ _ _ _ _ Hg Hl). cbn [fst].
       rewrite Hg0. cbn. lia. }
  rewrite (handle_try_routes _ _ _ _ _ _ Hg Hl). cbn [fst].
  rewrite request_sends_app, Hg0. cbn [app request_sends].
  unfold route.
  destruct (retcode =? 0).
  { destruct retdata as [d|]; cbn [fst request_sends]; [|cbn; lia].
    now apply send_data_sends_le1. }
  destruct (retcode =? 1).
  { cbn [fst request_sends]. now apply forward_roots_sends_le1. }
  destruct (retcode =? 2); cbn; lia.
Qed.

(** X16. One cycle, at most one reply: whatever the requester sent, whatever
    the lookup and the upstreams do, [handle] writes to the requester at
    most once. *)
Theorem handle_writes_at_most_once (h : handler) (w : world) :
  h = TCPRequestHandler \/ h = UDPRequestHandler ->
  (List.length (request_sends (fst (handle h w))) <= 1)%nat.
Proof.
  intros Hh.
  destruct (no_traffic_denied_from (fst (client_address w))
              (client_denylist (config w)) []) as [(Hd0 & _ & _) _].
  fold (get_denied_types w (fst (client_address w))) in Hd0.
  destruct (snd (get_denied_types w (fst (client_address w))))
    as [denylist|e] eqn:Hd.
  - rewrite (handle_caught _ _ _ Hd). cbn [fst request_sends].
    rewrite request_sends_app, Hd0. cbn [app request_sends].
    rewrite request_sends_app.
    destruct (no_traffic_tail (snd (handle_try h w denylist))) as (Ht & _).
    rewrite Ht, app_nil_r. now apply handle_try_sends_le1.
  - rewrite (handle_filter_fault _ _ _ Hd). cbn [fst request_sends].
    rewrite Hd0. cbn. lia.
Qed.

Lemma handle_writes_at_most_once_witness :
  (List.length
     (request_sends
        (fst (handle TCPRequestHandler
                (answering_world (0%Z, Some [x41])))))
   <= 1)%nat.
Proof.
  apply (handle_writes_at_most_once TCPRequestHandler
           (answering_world (0, Some [x41]))).
  left. reflexivity.
Defined.

Lemma TCP_send_data_overflow (w : world) (data : bytes) :
  65535 < len data ->
  TCP_send_data w data =
    ([], Raise (StructError "'H' format requires 0 <= number <= 65535")).
Proof.
  intros Hlen. unfold TCP_send_data, tcp_encode, struct_pack_H.
  replace ((0 <=? len data) && (len data <=? 65535)) with false;
    [reflexivity|].
  symmetry. apply andb_false_iff. right. apply Z.leb_gt. lia.
Qed.

(** X17. An answer of more than 65535 bytes cannot be framed: the TCP handler
    drops it.  Nothing is written to the requester, the [struct.error] is
    printed and [handle] returns normally. *)
Theorem handle_tcp_oversized_answer (w : world) (denylist : list string)
    (data answer : bytes) :
  snd (get_denied_types w (fst (client_address w))) = Return denylist ->
  snd (TCP_get_data w) = Return data ->
  dns_response w data (db_path (config w)) "tcp" denylist =
    Return (0, Some answer) ->
  65535 < len answer ->
  snd (handle TCPRequestHandler w) = Return tt /\
  no_traffic (fst (handle TCPRequestHandler w)) /\
  reported (fst (handle TCPRequestHandler w)) =
    [StructError "'H' format requires 0 <= number <= 65535"].
Proof.
  intros Hd Hg Hl Hlen.
  rewrite (handle_routes TCPRequestHandler w denylist data 0 (Some answer)
             Hd Hg Hl).
  cbn [fst snd].
  destruct (no_traffic_head TCPRequestHandler w denylist 0
              (or_introl eq_refl)) as [Hn Hr].
  cbv zeta in Hn, Hr.
  unfold route. cbn [Z.eqb send_data TCPRequestHandler].
  rewrite (TCP_send_data_overflow w answer Hlen). cbn [fst snd].
  split; [reflexivity|]. split.
  - apply no_traffic_app; [exact Hn | unfold no_traffic; repeat split].
  - rewrite reported_app, Hr. reflexivity.
Qed.

Lemma handle_tcp_oversized_answer_witness :
  let w := answering_world (0, Some (repeat x00 (Z.to_nat 65536))) in
  snd (handle TCPRequestHandler w) = Return tt /\
  no_traffic (fst (handle TCPRequestHandler w)) /\
  reported (fst (handle TCPRequestHandler w)) =
    [StructError "'H' format requires 0 <= number <= 65535"].
Proof.
  intros w.
  apply (handle_tcp_oversized_answer w [] [x61]
           (repeat x00 (Z.to_nat 65536))).
  - reflexivity.
  - reflexivity.
  - reflexivity.
  - unfold len. rewrite repeat_length, Z2Nat.id; [reflexivity|].
    apply Z.leb_le. reflexivity.
Defined.

Lemma denied_from_raises (search_ip : string) :
  forall rest ret,
    ((exists e, snd (denied_from search_ip rest ret) = Raise e) <->
     (exists entry, In entry rest /\ List.length entry <> 2%nat)) /\
    (forall e, snd (denied_from search_ip rest ret) = Raise e ->
               exists msg, e = ValueError msg).
Proof.
  induction rest as [|entry rest IH]; intros ret.
  - split; [split|]; [intros [e H]; discriminate H
                     | intros (entry & [] & _)
                     | intros e H; discriminate H].
  - cbn [denied_from].
    destruct entry as [|ip [|type [|x entry]]].
    + split; [split|].
      * intros _. exists []. split; [now left | discriminate].
      * intros _. eexists. reflexivity.
      * intros e [= <-]. eexists. reflexivity.
    + split; [split|].
      * intros _. exists [ip]. split; [now left | discriminate].
      * intros _. eexists. reflexivity.
      * intros e [= <-]. eexists. reflexivity.
    + unfold log. rewrite bind_emit. cbn [snd].
      destruct (IH (if String.eqb ip search_ip then ret ++ [type] else ret))
        as [[IH1 IH2] IH3].
      split; [split|].
      * intros H. destruct (IH1 H) as (entry & Hin & Hlen).
        exists entry. split; [now right | exact Hlen].
      * intros (entry & [<- | Hin] & Hlen); [now contradiction Hlen|].
        apply IH2. now exists entry.
      * exact IH3.
    + split; [split|].
      * intros _. exists (ip :: type :: x :: entry).
        split; [now left | discriminate].
      * intros _. eexists. reflexivity.
      * intros e [= <-]. eexists. reflexivity.
Qed.

(** X18. The access filter raises exactly when some entry of the configured
    denylist is not a pair, whichever client asks, and what it raises then
    is the [ValueError] of the failed unpacking. *)
Theorem get_denied_types_raises_iff (w : world) (search_ip : string) :
  ((exists e, snd (get_denied_types w search_ip) = Raise e) <->
   (exists entry,
       In entry (client_denylist (config w)) /\
       List.length entry <> 2%nat)) /\
  (forall e, snd (get_denied_types w search_ip) = Raise e ->
             exists msg, e = ValueError msg).
Proof. apply denied_from_raises. Qed.

(** X19. The access filter over a denylist made of two parts returns the types
    it returns over the first part followed by those it returns over the
    second: every rule is looked at, in order, and none hides another. *)
Theorem get_denied_types_app (w w1 w2 : world) (search_ip : string)
    (rules1 rules2 : list (string * string)) :
  client_denylist (config w1) = map rule_tuple rules1 ->
  client_denylist (config w2) = map rule_tuple rules2 ->
  client_denylist (config w) = map rule_tuple (rules1 ++ rules2) ->
  exists types1 types2,
    snd (get_denied_types w1 search_ip) = Return types1 /\
    snd (get_denied_types w2 search_ip) = Return types2 /\
    snd (get_denied_types w search_ip) = Return (types1 ++ types2) /\
    List.length (fst (get_denied_types w search_ip)) =
      List.length (rules1 ++ rules2).
Proof.
  intros H1 H2 H. unfold get_denied_types. rewrite H1, H2, H.
  rewrite !denied_from_rules. cbn [fst snd app].
  do 2 eexists. split; [reflexivity|]. split; [reflexivity|]. split.
  - now rewrite filter_app, map_app.
  - apply length_map.
Qed.

Lemma get_denied_types_app_witness :
  let deny rules :=
    with_config quiet_world
      {| db_path := "dns.db"; client_denylist := map rule_tuple rules;
         roots := [] |} in
  exists types1 types2,
    snd (get_denied_types (deny [("10.0.0.1", "A"); ("10.0.0.2", "MX")])
           "10.0.0.1") = Return types1 /\
    snd (get_denied_types (deny [("10.0.0.1", "AAAA")]) "10.0.0.1")
      = Return types2 /\
    snd (get_denied_types
           (deny ([("10.0.0.1", "A"); ("10.0.0.2", "MX")]
                  ++ [("10.0.0.1", "AAAA")])) "10.0.0.1")
      = Return (types1 ++ types2) /\
    List.length
      (fst (get_denied_types
              (deny ([("10.0.0.1", "A"); ("10.0.0.2", "MX")]
                     ++ [("10.0.0.1", "AAAA")])) "10.0.0.1")) =
      List.length ([("10.0.0.1", "A"); ("10.0.0.2", "MX")]
                   ++ [("10.0.0.1", "AAAA")]).
Proof.
  intros deny.
  apply (get_denied_types_app
           (deny ([("10.0.0.1", "A"); ("10.0.0.2", "MX")]
                  ++ [("10.0.0.1", "AAAA")]))
           (deny [("10.0.0.1", "A"); ("10.0.0.2", "MX")])
           (deny [("10.0.0.1", "AAAA")])
           "10.0.0.1"); reflexivity.
Defined.

Lemma upstream_sends_app (t1 t2 : list event) :
  upstream_sends (t1 ++ t2) = upstream_sends t1 ++ upstream_sends t2.
Proof.
  induction t1 as [|[] t1 IH]; cbn [app upstream_sends]; rewrite ?IH;
    reflexivity.
Qed.

Lemma upstream_sends_denied_from (search_ip : string) :
  forall rest ret, upstream_sends (fst (denied_from search_ip rest ret)) = [].
Proof.
  induction rest as [|entry rest IH]; intros ret; [reflexivity|].
  cbn [denied_from].
  destruct entry as [|ip [|type [|x entry]]]; try reflexivity.
  unfold log. rewrite bind_emit. cbn [fst upstream_sends]. apply IH.
Qed.

Lemma upstream_sends_get_data (h : handler) (w : world) :
  h = TCPRequestHandler \/ h = UDPRequestHandler ->
  upstream_sends (fst (get_data h w)) = [].
Proof.
  intros [-> | ->]; cbn [get_data TCPRequestHandler UDPRequestHandler].
  - unfold TCP_get_data, request_recv, bind, emit, lift, pure.
    destruct (request_stream w); reflexivity.
  - reflexivity.
Qed.

(** When the lookup asks for forwarding, what [handle] sends upstream is
    what [forward_roots] sends for the query [get_data] returned. *)
Lemma handle_forward_upstream_sends (h : handler) (w : world)
    (denylist : list string) (data : bytes) (retdata : option bytes) :
  h = TCPRequestHandler \/ h = UDPRequestHandler ->
  snd (get_denied_types w (fst (client_address w))) = Return denylist ->
  snd (get_data h w) = Return data ->
  dns_response w data (db_path (config w)) (lower (name3 h)) denylist =
    Return (1, retdata) ->
  upstream_sends (fst (handle h w)) =
    upstream_sends (fst (forward_roots h w data)) /\
  contacted (fst (handle h w)) = contacted (fst (forward_roots h w data)).
Proof.
  intros Hh Hd Hg Hl.
  rewrite (handle_routes _ _ _ _ _ _ Hd Hg Hl). cbn [fst].
  destruct (no_traffic_head h w denylist 1 Hh) as [(_ & _ & Hc) _].
  cbv zeta in Hc.
  pose proof (no_traffic_tail (snd (route h w data 1 retdata)))
    as (_ & _ & Hc').
  rewrite !contacted_app, Hc, Hc', app_nil_r.
  rewrite !upstream_sends_app.
  replace (upstream_sends
             match snd (route h w data 1 retdata) with
             | Return _ => []
             | Raise e => [PrintExc e]
             end) with (@nil bytes)
    by (destruct (snd (route h w data 1 retdata)); reflexivity).
  rewrite app_nil_r.
  cbn [upstream_sends]. rewrite upstream_sends_app.
  fold (get_denied_types w (fst (client_address w))).
  unfold get_denied_types at 1. rewrite upstream_sends_denied_from.
  cbn [app upstream_sends]. rewrite upstream_sends_app.
  rewrite (upstream_sends_get_data h w Hh).
  unfold route. cbn [Z.eqb Pos.eqb fst app upstream_sends contacted].
  split; reflexivity.
Qed.

(** X20. Forwarding end to end.  Over TCP, the frame sent upstream (to at most
    one upstream) is, byte for byte, what was read from the requester,
    stripped.  Over UDP, every root contacted is sent the stripped
    datagram. *)
Theorem handle_forwards_the_stripped_request (w : world)
    (denylist : list string) (retdata : option bytes) :
  snd (get_denied_types w (fst (client_address w))) = Return denylist ->
  (forall stream data,
      request_stream w = Return stream ->
      snd (TCP_get_data w) = Return data ->
      dns_response w data (db_path (config w)) "tcp" denylist =
        Return (1, retdata) ->
      upstream_sends (fst (handle TCPRequestHandler w)) = [] \/
      upstream_sends (fst (handle TCPRequestHandler w)) =
        [strip (recv_upto 8192 stream)]) /\
  (dns_response w (strip (request_datagram w)) (db_path (config w)) "udp"
                denylist = Return (1, retdata) ->
   upstream_sends (fst (handle UDPRequestHandler w)) =
     repeat (strip (request_datagram w))
            (List.length (contacted (fst (handle UDPRequestHandler w))))).
Proof.
  intros Hd. split.
  - intros stream data Hs Hg Hl.
    pose proof (handle_forward_upstream_sends TCPRequestHandler w denylist
                  data retdata (or_introl eq_refl) Hd Hg Hl) as [Hu _].
    rewrite Hu. cbn [forward_roots TCPRequestHandler].
    unfold TCP_forward_roots.
    destruct (TCP_upstream_sends w data (roots (config w)) 0%nat)
      as [H | (sz & Hp & H)]; [left; exact H|].
    right. rewrite H. revert Hg.
    rewrite (TCP_get_data_decodes _ _ Hs). cbn [snd].
    generalize (recv_upto 8192 stream). intros received Hg.
    apply tcp_decode_encode_stripped in Hg.
    unfold tcp_encode in Hg. rewrite Hp in Hg.
    injection Hg as Hg. rewrite Hg. reflexivity.
  - intros Hl.
    assert (Hg : snd (get_data UDPRequestHandler w) =
                 Return (strip (request_datagram w))) by reflexivity.
    pose proof (handle_forward_upstream_sends UDPRequestHandler w denylist
                  (strip (request_datagram w)) retdata (or_intror eq_refl)
                  Hd Hg Hl) as [Hu Hc].
    rewrite Hu, Hc. cbn [forward_roots UDPRequestHandler].
    unfold UDP_forward_roots.
    exact (UDP_upstream_sends w (strip (request_datagram w))
             (roots (config w)) 0%nat).
Qed.

Lemma handle_forwards_the_stripped_request_witness :
  upstream_sends (fst (handle UDPRequestHandler recv_timeout_world)) =
    repeat (strip (request_datagram recv_timeout_world))
           (List.length
              (contacted (fst (handle UDPRequestHandler recv_timeout_world)))).
Proof.
  apply (handle_forwards_the_stripped_request recv_timeout_world [] None
           eq_refl).
  reflexivity.
Defined.
